(** * Google Trends segment pipeline: a shallow embedding of
      [Google_Trends_2.1.0.0.py]

    The development follows the script: [divide_timeframe_range] (the range
    segmenter), [determine_overall_granularity_from_data] (the granularity
    inferrer) and [get_data] (fetch, zero-fill, boundary rescale, concat).

    Conventions of the embedding.
    - A [datetime] holding a calendar date is its proleptic Gregorian ordinal
      (a [Z], as [datetime.toordinal] gives it); [timedelta(days=k)] is [k].
      Adding a [timedelta] that leaves [MINORD..MAXORD] raises
      [OverflowError], as the [datetime] library does.
    - A pandas timestamp is a [Z] count of nanoseconds; [Timedelta.days] is
      the floor division by the nanoseconds of a day.
    - Interest scores are exact rationals ([Qc]).  The script computes with
      binary64 numbers; an equation proved here holds in the script up to
      rounding.
    - Exceptions are values of [exn], carried by the [result] monad; the
      [while] loop runs on fuel and [OutOfFuel] stands for a loop that has not
      ended within the given number of iterations. *)

From Stdlib Require Import ZArith QArith Qcanon Lia.
From stdpp Require Import base option list gmap strings numbers sorting fin_maps.

Local Open Scope Z_scope.

(** ** Exceptions and the result monad *)

Inductive exn : Type :=
  | OverflowError
  | IndexError
  | KeyError
  | ValueError.

Inductive result (A : Type) : Type :=
  | Ret (a : A)
  | Raise (e : exn)
  | OutOfFuel.

Arguments Ret {A} a.
Arguments Raise {A} e.
Arguments OutOfFuel {A}.

Definition rbind {A B : Type} (m : result A) (k : A → result B) : result B :=
  match m with
  | Ret a => k a
  | Raise e => Raise e
  | OutOfFuel => OutOfFuel
  end.

Declare Scope result_scope.
Delimit Scope result_scope with res.
Notation "'let*' x ':=' m 'in' k" := (rbind m (fun x => k))
  (at level 10, x name, m at level 100, k at level 200) : result_scope.
Local Open Scope result_scope.

(** [for x in l: s = body(s, x)] with exceptions. *)
Fixpoint for_each {S X : Type} (body : S → X → result S) (l : list X) (s : S)
  : result S :=
  match l with
  | [] => Ret s
  | x :: l' => let* s' := body s x in for_each body l' s'
  end.

Definition is_Ret {A : Type} (r : result A) : Prop := ∃ a, r = Ret a.

Global Instance exn_eq_dec : EqDecision exn.
Proof. solve_decision. Defined.

Global Instance result_eq_dec {A : Type} `{EqDecision A} : EqDecision (result A).
Proof. solve_decision. Defined.

(** ** Calendar dates *)

Module Date.

(** The ordinals of 0001-01-01 and 9999-12-31. *)
Definition MINORD : Z := 1.
Definition MAXORD : Z := 3652059.

Definition is_leap (y : Z) : bool :=
  (y mod 4 =? 0) && (negb (y mod 100 =? 0) || (y mod 400 =? 0)).

Definition days_before_year (y : Z) : Z :=
  let y1 := y - 1 in y1 * 365 + y1 / 4 - y1 / 100 + y1 / 400.

Definition days_in_month (y m : Z) : Z :=
  if m =? 2 then (if is_leap y then 29 else 28)
  else if (m =? 4) || (m =? 6) || (m =? 9) || (m =? 11) then 30
  else 31.

Fixpoint days_before_month_aux (y : Z) (m : nat) : Z :=
  match m with
  | O => 0
  | S m' => days_before_month_aux y m' + days_in_month y (Z.of_nat m)
  end.

Definition days_before_month (y m : Z) : Z :=
  days_before_month_aux y (Z.to_nat (m - 1)).

(** The ordinal of the date [y-m-d], what [strptime(_, '%Y-%m-%d')]
    followed by [toordinal] gives for a well-formed date string. *)
Definition ymd (y m d : Z) : Z :=
  days_before_year y + days_before_month y m + d.

(** [date + timedelta(days=k)]. *)
Definition add (d k : Z) : result Z :=
  let r := d + k in
  if (MINORD <=? r) && (r <=? MAXORD) then Ret r else Raise OverflowError.

End Date.

(** ** The range segmenter *)

Definition Segment : Type := (Z * Z)%type.

Definition seg_start (s : Segment) : Z := s.1.
Definition seg_end (s : Segment) : Z := s.2.

(** Python truthiness of [num_segments]: [None] and [0] are false. *)
Definition truthy (num_segments : option Z) : bool :=
  match num_segments with
  | Some n => negb (n =? 0)
  | None => false
  end.

(** The [while current_start < end_date_obj] loop; [segments] is the list
    built so far, appended to at its end. *)
Fixpoint segment_loop (fuel : nat) (delta end_date_obj current_start : Z)
    (segments : list Segment) : result (list Segment) :=
  if current_start <? end_date_obj then
    match fuel with
    | O => OutOfFuel
    | S fuel' =>
        let* shifted := Date.add current_start delta in
        let current_end := Z.min shifted end_date_obj in
        let segments := segments ++ [(current_start, current_end)] in
        let* current_start := Date.add current_end 1 in
        segment_loop fuel' delta end_date_obj current_start segments
    end
  else Ret segments.

Definition divide_timeframe_range (fuel : nat) (start_date end_date : Z)
    (granularity : string) (num_segments : option Z) : result (list Segment) :=
  let start_date_obj := start_date in
  let end_date_obj := end_date in
  let segments := [] in
  let current_start := start_date_obj in
  let total_days := end_date_obj - start_date_obj in
  let run delta := segment_loop fuel delta end_date_obj current_start segments in
  if truthy num_segments then run (total_days / default 0 num_segments)
  else if String.eqb granularity "d" then run 269
  else if String.eqb granularity "w" then run 1889
  else Ret [(start_date, end_date)].

(** *** The shape of the segmenter's output *)

(** [chain delta e cs segs fin]: started with [current_start = cs], the loop
    appends exactly [segs] and leaves with [current_start = fin]. *)
Inductive chain (delta e : Z) : Z → list Segment → Z → Prop :=
  | chain_done cs :
      e ≤ cs → chain delta e cs [] cs
  | chain_step cs segs fin :
      cs < e →
      chain delta e (Z.min (cs + delta) e + 1) segs fin →
      chain delta e cs ((cs, Z.min (cs + delta) e) :: segs) fin.

(** The day [d] lies in one of the segments. *)
Definition covered (segs : list Segment) (d : Z) : Prop :=
  ∃ s, s ∈ segs ∧ seg_start s ≤ d ≤ seg_end s.

(** Each segment starts the day after the one before it ends. *)
Definition contiguous (segs : list Segment) : Prop :=
  ∀ (i : nat) s s', segs !! i = Some s → segs !! S i = Some s' →
    seg_start s' = seg_end s + 1.


(** ** The granularity inferrer *)

Definition Timestamp : Type := Z.

Definition NS_PER_DAY : Z := 86400000000000.

(** [Timedelta.days]. *)
Definition td_days (td : Z) : Z := td / NS_PER_DAY.

Fixpoint diff_from (prev : Timestamp) (l : list Timestamp) : list (option Z) :=
  match l with
  | [] => []
  | t :: l' => Some (t - prev) :: diff_from t l'
  end.

(** [Series.diff()]: the first entry has no predecessor and is [NaT]. *)
Definition series_diff (l : list Timestamp) : list (option Z) :=
  match l with
  | [] => []
  | t :: l' => None :: diff_from t l'
  end.

(** [Series.dropna()]. *)
Definition dropna {A : Type} (l : list (option A)) : list A := omap id l.

Definition occurrences (x : Z) (l : list Z) : nat :=
  length (filter (λ y, y = x) l).

(** [Series.mode()]: the values that occur most often, in ascending order. *)
Definition series_mode (l : list Z) : list Z :=
  let top := max_list_with (λ x, occurrences x l) l in
  merge_sort Z.le (remove_dups (filter (λ x, occurrences x l = top) l)).

(** [.iloc[0]] and [.iloc[-1]]. *)
Definition iloc_first {A : Type} (l : list A) : result A :=
  match head l with
  | Some x => Ret x
  | None => Raise IndexError
  end.

Definition iloc_last {A : Type} (l : list A) : result A :=
  match last l with
  | Some x => Ret x
  | None => Raise IndexError
  end.

Inductive GranularityLabel : Type := daily | weekly | monthly.

(** A table: the row labels and the columns by name, every column as long
    as the index. *)
Record Frame (C : Type) : Type := mkFrame {
  index : list Timestamp;
  columns : gmap string (list C)
}.

Arguments mkFrame {C} index columns.
Arguments index {C} f.
Arguments columns {C} f.

Global Instance frame_eq_dec {C : Type} `{EqDecision C} : EqDecision (Frame C).
Proof. solve_decision. Defined.

(** [data.index.to_series().diff().dropna().dt.days] *)
Definition date_diffs (data_index : list Timestamp) : list Z :=
  td_days <$> dropna (series_diff data_index).

(** Only [data.index] is read. *)
Definition determine_overall_granularity_from_data {C : Type} (data : Frame C)
  : result GranularityLabel :=
  let* common_diff := iloc_first (series_mode (date_diffs (index data))) in
  if common_diff =? 1 then Ret daily
  else if common_diff <=? 7 then Ret weekly
  else Ret monthly.

(** [m] is the most frequent value of [l], the least one among those that
    occur equally often. *)
Definition is_mode (m : Z) (l : list Z) : Prop :=
  m ∈ l
  ∧ (∀ x, (occurrences x l ≤ occurrences m l)%nat)
  ∧ (∀ x, occurrences x l = occurrences m l → m ≤ x).

(** Every two consecutive timestamps are exactly [k] days apart. *)
Definition uniform_gap (k : Z) (data_index : list Timestamp) : Prop :=
  ∀ (i : nat) t t', data_index !! i = Some t → data_index !! S i = Some t' →
    t' - t = k * NS_PER_DAY.

(** ** Fetch, zero-fill, rescale, concatenate *)

(** A fetched segment holds numbers; a missing cell ([NaN]) only arises in
    [pd.concat], for a column that one of the frames lacks. *)
Abbreviation DataFrame := (Frame Qc).
Abbreviation CombinedFrame := (Frame (option Qc)).

Definition frame_wf {C : Type} (df : Frame C) : Prop :=
  map_Forall (λ _ c, length c = length (index df)) (columns df).

(** [DataFrame.empty]: some axis has length zero. *)
Definition df_empty {C : Type} (df : Frame C) : bool :=
  bool_decide (length (index df) = 0%nat) || bool_decide (size (columns df) = 0%nat).

(** [df[keyword]]. *)
Definition getitem {C : Type} (df : Frame C) (keyword : string) : result (list C) :=
  match columns df !! keyword with
  | Some c => Ret c
  | None => Raise KeyError
  end.

(** [df[keyword] = column]. *)
Definition setitem {C : Type} (df : Frame C) (keyword : string) (c : list C)
  : Frame C :=
  mkFrame (index df) (<[keyword := c]> (columns df)).

(** [df[keyword] = v] for a scalar [v]. *)
Definition setitem_scalar {C : Type} (df : Frame C) (keyword : string) (v : C)
  : Frame C :=
  setitem df keyword (replicate (length (index df)) v).

(** The external source: [build_payload(kw_list, timeframe, geo, cat)]
    followed by [interest_over_time()]. *)
Definition TrendReq : Type :=
  list string → Segment → string → string → DataFrame.

(** "Ensure all keywords are present in the segment data". *)
Definition zero_fill (keywords : list string) (segment_data : DataFrame)
  : DataFrame :=
  foldl (λ df keyword,
           if decide (columns df !! keyword = None)
           then setitem_scalar df keyword 0%Qc else df)
        segment_data keywords.

(** The first loop of [get_data]. *)
Definition fetch_segments (pytrends : TrendReq) (keywords : list string)
    (segments : list Segment) (geo : string) (youtube : bool)
  : list DataFrame :=
  (λ time_range,
     zero_fill keywords
       (pytrends keywords time_range geo (if youtube then "29" else "0")))
  <$> segments.

Definition frame_at (trends_data : list DataFrame) (i : nat) : result DataFrame :=
  match trends_data !! i with
  | Some df => Ret df
  | None => Raise IndexError
  end.

(** The scale factor of one boundary and one keyword, from the frame after
    the boundary ([cur]) and the frame before it ([prev]). *)
Definition scale_factor (cur prev : DataFrame) (keyword : string) : result Qc :=
  let* mean_current_start :=
    if negb (df_empty cur)
    then (let* c := getitem cur keyword in iloc_first c)
    else Ret 0%Qc in
  let* mean_previous_end :=
    if negb (df_empty prev)
    then (let* c := getitem prev keyword in iloc_last c)
    else Ret 0%Qc in
  Ret (if decide (mean_previous_end ≠ 0%Qc)
       then (mean_current_start / mean_previous_end)%Qc
       else 1%Qc).

(** [series * scale]: every value of the column times the scalar. *)
Definition series_mul (c : list Qc) (scale : Qc) : list Qc :=
  (λ v, v * scale)%Qc <$> c.

(** The body of the inner loop: [trends_data[i-1][keyword] *= scale_factor]. *)
Definition rescale_step (i : nat) (trends_data : list DataFrame)
    (keyword : string) : result (list DataFrame) :=
  let* cur := frame_at trends_data i in
  let* prev := frame_at trends_data (i - 1) in
  let* scale := scale_factor cur prev keyword in
  let* c := getitem prev keyword in
  Ret (<[(i - 1)%nat := setitem prev keyword (series_mul c scale)]>
         trends_data).

(** "Adjusting the scaling factor for each segment":
    [for i in range(1, n): for keyword in keywords: ...]. *)
Definition rescale_segments (keywords : list string) (n : nat)
    (trends_data : list DataFrame) : result (list DataFrame) :=
  for_each (λ td i, for_each (rescale_step i) keywords td)
           (seq 1 (n - 1)) trends_data.

(** The column [k] of one frame as [pd.concat] lays it out. *)
Definition concat_cells (k : string) (df : DataFrame) : list (option Qc) :=
  match columns df !! k with
  | Some c => Some <$> c
  | None => replicate (length (index df)) None
  end.

(** [pd.concat(objs)] along the rows, with the union of the columns. *)
Definition pd_concat (objs : list DataFrame) : result CombinedFrame :=
  match objs with
  | [] => Raise ValueError
  | _ =>
      let names : gset string := ⋃ ((λ df, dom (columns df)) <$> objs) in
      Ret (mkFrame (objs ≫= index)
                   (set_to_map (λ k, (k, objs ≫= concat_cells k)) names))
  end.

Definition get_data (pytrends : TrendReq) (fuel : nat) (keywords : list string)
    (timeframe_range : Z * Z) (geo : string) (youtube : bool)
    (granularity : string) : result CombinedFrame :=
  let* segments :=
    divide_timeframe_range fuel timeframe_range.1 timeframe_range.2
                           granularity None in
  let trends_data := fetch_segments pytrends keywords segments geo youtube in
  let* trends_data := rescale_segments keywords (length segments) trends_data in
  let* combined_data := pd_concat trends_data in
  let* overall_granularity :=
    determine_overall_granularity_from_data combined_data in
  Ret combined_data.

(** The rows of segment [i] within a column of the combined frame. *)
Definition segment_rows {A : Type} (trends_data : list DataFrame) (i : nat)
    (col : list A) : list A :=
  take (from_option (λ df, length (index df)) 0%nat (trends_data !! i))
       (drop (length (take i trends_data ≫= index)) col).

(** *** The rescale pass in closed form *)

(** The values the boundary rule reads: the first value of the frame after
    the boundary and the last value of the frame before it, [0] for an empty
    frame. *)
Definition head_value (cur : DataFrame) (keyword : string) : Qc :=
  if df_empty cur then 0%Qc
  else default 0%Qc (columns cur !! keyword ≫= head).

Definition tail_value (prev : DataFrame) (keyword : string) : Qc :=
  if df_empty prev then 0%Qc
  else default 0%Qc (columns prev !! keyword ≫= last).

Definition scale_of (cur prev : DataFrame) (keyword : string) : Qc :=
  if decide (tail_value prev keyword ≠ 0%Qc)
  then (head_value cur keyword / tail_value prev keyword)%Qc
  else 1%Qc.

(** The frame before a boundary once the inner loop has run over
    [keywords]. *)
Definition rescaled_frame (keywords : list string) (cur prev : DataFrame)
  : DataFrame :=
  mkFrame (index prev)
    (map_imap (λ k c, Some (if decide (k ∈ keywords)
                            then series_mul c (scale_of cur prev k)
                            else c))
              (columns prev)).

(** All frames once both loops have run: every frame but the last is
    rescaled against its right neighbour as fetched. *)
Definition rescaled_segments (keywords : list string)
    (trends_data : list DataFrame) : list DataFrame :=
  imap (λ i prev, match trends_data !! S i with
                  | Some cur => rescaled_frame keywords cur prev
                  | None => prev
                  end) trends_data.

(** What the rescale pass relies on: columns as long as the index, and a
    column for every keyword (the zero-fill provides it). *)
Definition frame_ready (keywords : list string) (df : DataFrame) : Prop :=
  frame_wf df ∧ Forall (λ kw, is_Some (columns df !! kw)) keywords.

(** Every answer of the source to the queries of one run is a table. *)
Definition source_wf (pytrends : TrendReq) (keywords : list string)
    (segments : list Segment) (geo : string) (youtube : bool) : Prop :=
  Forall (λ time_range,
            frame_wf (pytrends keywords time_range geo
                               (if youtube then "29" else "0")))
         segments.

Global Instance frame_wf_dec {C : Type} (df : Frame C) : Decision (frame_wf df).
Proof. unfold frame_wf. apply _. Defined.

Global Instance frame_ready_dec keywords df : Decision (frame_ready keywords df).
Proof. unfold frame_ready. apply _. Defined.

Global Instance source_wf_dec pytrends keywords segments geo youtube :
  Decision (source_wf pytrends keywords segments geo youtube).
Proof. unfold source_wf. apply _. Defined.

(** *** A stub source *)

Module Stub.

Definition day (n : Z) : Timestamp := n * NS_PER_DAY.

Definition q (n : Z) : Qc := Qc_of_Z n.

(** Three segments of two rows each for the range 2020-01-01 ..
    2021-12-31 at granularity "d"; keywords "A" and "C" are answered, "B"
    never is.  Every quotient that the rescale pass forms on these values is
    a power of two or an integer, so binary64 arithmetic is exact on them. *)
Definition pytrends : TrendReq := λ kw_list time_range geo cat,
  let idx := [day time_range.1; day time_range.2] in
  if time_range.1 =? Date.ymd 2020 1 1
  then mkFrame idx {[ "A" := [q 10; q 20]; "C" := [q 2; q 1] ]}
  else if time_range.1 =? Date.ymd 2020 9 27
  then mkFrame idx {[ "A" := [q 40; q 50]; "C" := [q 7; q 0] ]}
  else mkFrame idx {[ "A" := [q 100; q 80]; "C" := [q 3; q 3] ]}.

Definition keywords : list string := ["A"; "B"; "C"].

Definition timeframe_range : Z * Z :=
  (Date.ymd 2020 1 1, Date.ymd 2021 12 31).

Definition segments : list Segment :=
  [(Date.ymd 2020 1 1, Date.ymd 2020 9 26);
   (Date.ymd 2020 9 27, Date.ymd 2021 6 23);
   (Date.ymd 2021 6 24, Date.ymd 2021 12 31)].

Definition trends_data : list DataFrame :=
  fetch_segments pytrends keywords segments "" false.

(** A frame with rows and the zero-filled empty answer that follows it. *)
Definition prev : DataFrame := mkFrame [day 1; day 2] {[ "A" := [q 10; q 20] ]}.
Definition cur : DataFrame := zero_fill ["A"] (mkFrame [] ∅).

(** What [get_data] returns for the three segments. *)
Definition combined_data : CombinedFrame :=
  mkFrame (segments ≫= λ time_range, [day time_range.1; day time_range.2])
          {[ "A" := Some <$> [q 20; q 40; q 80; q 100; q 100; q 80];
             "B" := replicate 6 (Some (q 0));
             "C" := Some <$> [q 14; q 7; q 7; q 0; q 3; q 3] ]}.

End Stub.

(** No score of the frame is negative. *)
Definition frame_nonneg (df : DataFrame) : Prop :=
  map_Forall (λ _ c, Forall (λ v, (0 ≤ v)%Qc) c) (columns df).

Global Instance frame_nonneg_dec df : Decision (frame_nonneg df).
Proof. unfold frame_nonneg. apply _. Defined.

(** ** The first version of the script: [Google_Trends.py]

    It halves the range at its midpoint, fetches the two halves, rescales
    the first half against the second and plots; it has no zero-fill and no
    check for empty frames. *)

(** A binary64 value as far as a division of two interest scores can give
    it: a number, an infinity or [NaN]. *)
Inductive fvalue : Type :=
  | Fin (q : Qc)
  | PInf
  | NInf
  | NaN.

Global Instance fvalue_eq_dec : EqDecision fvalue.
Proof. solve_decision. Defined.

(** [a / b] on two cells of a combined frame, as pandas divides columns: a
    missing cell gives [NaN], a zero divisor gives an infinity or [NaN],
    never an exception. *)
Definition float_div (a b : option Qc) : fvalue :=
  match a, b with
  | Some x, Some y =>
      if decide (y = 0%Qc)
      then (if decide (x = 0%Qc) then NaN
            else if decide (0 < x)%Qc then PInf else NInf)
      else Fin (x / y)%Qc
  | _, _ => NaN
  end.

(** [l[i]] on a Python list, for [i >= 0]. *)
Definition list_item {A : Type} (l : list A) (i : nat) : result A :=
  match l !! i with
  | Some x => Ret x
  | None => Raise IndexError
  end.

Module V1.

Definition US_PER_DAY : Z := 86400000000.

(** A [datetime] is its count of microseconds since the midnight that
    starts ordinal 0; a [timedelta] is a count of microseconds. *)
Definition strptime (date : Z) : Z := date * US_PER_DAY.

(** [strftime('%Y-%m-%d')] keeps the date and drops the time of day. *)
Definition strftime (dt : Z) : Z := dt / US_PER_DAY.

(** The rounding of [timedelta / int]: to the nearest microsecond, ties to
    even. *)
Definition divide_and_round (a b : Z) : Z :=
  let q := a / b in
  let r := a mod b in
  let r := r * 2 in
  let greater_than_half := if 0 <? b then b <? r else r <? b in
  if greater_than_half || ((r =? b) && (q mod 2 =? 1)) then q + 1 else q.

(** [datetime + timedelta]. *)
Definition datetime_add (dt td : Z) : result Z :=
  let r := dt + td in
  if (Date.MINORD <=? strftime r) && (strftime r <=? Date.MAXORD)
  then Ret r else Raise OverflowError.

Definition divide_timeframe_range (start_date end_date : Z)
  : result (Z * Z * Z) :=
  let start_date_obj := strptime start_date in
  let end_date_obj := strptime end_date in
  let* midpoint_date_obj :=
    datetime_add start_date_obj
                 (divide_and_round (end_date_obj - start_date_obj) 2) in
  Ret (strftime start_date_obj, strftime midpoint_date_obj,
       strftime end_date_obj).

(** The generator, run to its end as [list(get_trends_data(...))] does. *)
Definition get_trends_data (pytrends : TrendReq) (keywords : list string)
    (timeframe_range : Z * Z) (geo : string) (youtube : bool)
  : result (list DataFrame) :=
  let* dates :=
    divide_timeframe_range timeframe_range.1 timeframe_range.2 in
  let start_date := dates.1.1 in
  let midpoint_date := dates.1.2 in
  let end_date := dates.2 in
  Ret ((λ time_range,
          pytrends keywords time_range geo (if youtube then "29" else "0"))
       <$> [(start_date, midpoint_date); (midpoint_date, end_date)]).

(** The body of the rescale loop of [plot_keyword_trends]. *)
Definition rescale_first_half (trends_data : list DataFrame)
    (keyword : string) : result (list DataFrame) :=
  let* second := frame_at trends_data 1 in
  let* c1 := getitem second keyword in
  let* mean_second_half_start := iloc_first c1 in
  let* first := frame_at trends_data 0 in
  let* c0 := getitem first keyword in
  let* mean_first_half_end := iloc_last c0 in
  let scale_factor :=
    if decide (mean_first_half_end ≠ 0%Qc)
    then (mean_second_half_start / mean_first_half_end)%Qc
    else 1%Qc in
  let* c := getitem first keyword in
  Ret (<[0%nat := setitem first keyword (series_mul c scale_factor)]>
         trends_data).

(** [plot_keyword_trends] up to [combined_data], the table it plots. *)
Definition plot_keyword_trends (pytrends : TrendReq) (keywords : list string)
    (timeframe_range : Z * Z) (geo : string) (youtube : bool)
  : result CombinedFrame :=
  let* trends_data :=
    get_trends_data pytrends keywords timeframe_range geo youtube in
  let* trends_data := for_each rescale_first_half keywords trends_data in
  pd_concat trends_data.

(** [plot_interest_ratio] up to [ratio_data]: the index and the values it
    plots. *)
Definition plot_interest_ratio (pytrends : TrendReq) (keywords : list string)
    (timeframe_range : Z * Z) (geo : string) (youtube : bool)
  : result (list Timestamp * list fvalue) :=
  let* keyword1 := list_item keywords 0 in
  let* keyword2 := list_item keywords 1 in
  let* trends_data :=
    get_trends_data pytrends [keyword1; keyword2] timeframe_range geo youtube in
  let* combined_data := pd_concat trends_data in
  let* c1 := getitem combined_data keyword1 in
  let* c2 := getitem combined_data keyword2 in
  Ret (index combined_data, zip_with float_div c1 c2).

End V1.

(** *** More stub sources *)

Module Demo.

(** The second segment starts at 0 for "A". *)
Definition pytrends_gap : TrendReq := λ kw_list time_range geo cat,
  let idx := [Stub.day time_range.1; Stub.day time_range.2] in
  if time_range.1 =? Date.ymd 2020 1 1
  then mkFrame idx {[ "A" := [Stub.q 10; Stub.q 20] ]}
  else if time_range.1 =? Date.ymd 2020 9 27
  then mkFrame idx {[ "A" := [Stub.q 0; Stub.q 50] ]}
  else mkFrame idx {[ "A" := [Stub.q 100; Stub.q 80] ]}.

Definition combined_gap : CombinedFrame :=
  mkFrame (Stub.segments ≫= λ time_range,
             [Stub.day time_range.1; Stub.day time_range.2])
          {[ "A" := Some <$> [Stub.q 0; Stub.q 0; Stub.q 0;
                              Stub.q 100; Stub.q 100; Stub.q 80] ]}.

(** What the first version plots for keywords "A" and "C" over the range
    of [Stub.timeframe_range]: the halves meet on 2020-12-31. *)
Definition v1_keywords : list string := ["A"; "C"].

Definition v1_midpoint : Z := Date.ymd 2020 12 31.

Definition v1_first : DataFrame :=
  Stub.pytrends v1_keywords (Date.ymd 2020 1 1, v1_midpoint) "" "0".

Definition v1_second : DataFrame :=
  Stub.pytrends v1_keywords (v1_midpoint, Date.ymd 2021 12 31) "" "0".

Definition v1_combined : CombinedFrame :=
  mkFrame [Stub.day (Date.ymd 2020 1 1); Stub.day v1_midpoint;
           Stub.day v1_midpoint; Stub.day (Date.ymd 2021 12 31)]
          {[ "A" := Some <$> [Stub.q 50; Stub.q 100; Stub.q 100; Stub.q 80];
             "C" := Some <$> [Stub.q 6; Stub.q 3; Stub.q 3; Stub.q 3] ]}.

(** The stub source with every answer doubled, as a request normalized
    to another scale would come back. *)
Definition pytrends_doubled : TrendReq := λ kw_list time_range geo cat,
  let answer := Stub.pytrends kw_list time_range geo cat in
  mkFrame (index answer)
          ((λ c, series_mul c (Stub.q 2)) <$> columns answer).

End Demo.

(** * Properties of the segmenter *)

Example ymd_epoch : Date.ymd 1 1 1 = Date.MINORD ∧ Date.ymd 9999 12 31 = Date.MAXORD.
Proof. split; reflexivity. Qed.

Example divide_two_years :
  divide_timeframe_range 10 (Date.ymd 2020 1 1) (Date.ymd 2021 12 31) "d" None
  = Ret [(Date.ymd 2020 1 1, Date.ymd 2020 9 26);
         (Date.ymd 2020 9 27, Date.ymd 2021 6 23);
         (Date.ymd 2021 6 24, Date.ymd 2021 12 31)].
Proof. vm_compute. reflexivity. Qed.

Lemma date_add_Ret d k r : Date.add d k = Ret r → r = d + k.
Proof.
  unfold Date.add. case_match; intros Heq; by inversion Heq.
Qed.

Lemma date_add_in_range d k :
  Date.MINORD ≤ d + k ≤ Date.MAXORD → Date.add d k = Ret (d + k).
Proof.
  intros [H1 H2]. unfold Date.add.
  apply Z.leb_le in H1, H2. by rewrite H1, H2.
Qed.

Lemma segment_loop_chain fuel delta e : ∀ cs acc segs,
  segment_loop fuel delta e cs acc = Ret segs →
  ∃ new fin, segs = acc ++ new ∧ chain delta e cs new fin.
Proof.
  induction fuel as [|fuel IH]; intros cs acc segs; simpl;
    destruct (Z.ltb_spec cs e) as [Hlt|Hge]; try discriminate.
  - intros [= <-]. exists [], cs. rewrite app_nil_r. split; [done|by constructor].
  - destruct (Date.add cs delta) as [sh| |] eqn:Hsh; simpl; try discriminate.
    apply date_add_Ret in Hsh as ->.
    destruct (Date.add (Z.min (cs + delta) e) 1) as [nx| |] eqn:Hnx;
      simpl; try discriminate.
    apply date_add_Ret in Hnx as ->.
    intros H. apply IH in H as (new & fin & -> & Hch).
    exists ((cs, Z.min (cs + delta) e) :: new), fin.
    rewrite <- app_assoc. split; [done|]. by constructor.
  - intros [= <-]. exists [], cs. rewrite app_nil_r. split; [done|by constructor].
Qed.

Lemma segment_loop_total fuel delta e : ∀ cs acc,
  0 ≤ delta → Date.MINORD ≤ cs → e + delta < Date.MAXORD →
  (Z.to_nat (e - cs) ≤ fuel)%nat →
  is_Ret (segment_loop fuel delta e cs acc).
Proof.
  induction fuel as [|fuel IH]; intros cs acc Hd Hmin Hmax Hfuel; simpl;
    destruct (Z.ltb_spec cs e) as [Hlt|Hge]; try (by eexists); try lia.
  rewrite date_add_in_range by lia. simpl.
  rewrite date_add_in_range by (unfold Date.MINORD in *; lia). simpl.
  apply IH; try lia.
Qed.

Lemma chain_past_end delta e cs segs fin :
  chain delta e cs segs fin → e ≤ cs → segs = [] ∧ fin = cs.
Proof. destruct 1; [done|lia]. Qed.

Section chain_facts.
Context (delta e : Z) (Hdelta : 0 ≤ delta).

Lemma chain_Forall cs segs fin :
  chain delta e cs segs fin →
  Forall (λ s, cs ≤ seg_start s ∧ seg_start s ≤ seg_end s
               ∧ seg_end s - seg_start s ≤ delta ∧ seg_end s ≤ e) segs.
Proof.
  induction 1 as [|cs segs fin Hlt _ IH]; constructor.
  - unfold seg_start, seg_end; simpl. lia.
  - eapply Forall_impl; [exact IH|]. simpl. intros s. lia.
Qed.

Lemma chain_head cs segs fin s :
  chain delta e cs segs fin → head segs = Some s → seg_start s = cs.
Proof. destruct 1; simpl; [done|]. by intros [= <-]. Qed.

Lemma chain_contiguous cs segs fin :
  chain delta e cs segs fin → contiguous segs.
Proof.
  induction 1 as [|cs segs fin Hlt Hch IH]; intros i s s' Hi Hi'; [done|].
  destruct i as [|i]; simpl in *.
  - injection Hi as <-. rewrite <- head_lookup in Hi'.
    by rewrite (chain_head _ _ _ _ Hch Hi').
  - eauto.
Qed.

Lemma chain_fin cs segs fin :
  chain delta e cs segs fin → cs ≤ e → e ≤ fin ≤ e + 1.
Proof.
  induction 1 as [|cs segs fin Hlt Hch IH]; intros Hle; [lia|].
  destruct (Z.le_gt_cases (Z.min (cs + delta) e + 1) e) as [Hin|Hout].
  - by apply IH.
  - apply chain_past_end in Hch as [_ ->]; lia.
Qed.

Lemma chain_covered cs segs fin :
  chain delta e cs segs fin → ∀ d, covered segs d ↔ cs ≤ d < fin.
Proof.
  induction 1 as [cs Hge|cs segs fin Hlt Hch IH]; intros d.
  - split; [|lia]. intros (s & Hs & _). by apply elem_of_nil in Hs.
  - assert (Z.min (cs + delta) e + 1 ≤ fin) as Hfin.
    { destruct (Z.le_gt_cases (Z.min (cs + delta) e + 1) e) as [Hin|Hout].
      - pose proof (chain_fin _ _ _ Hch Hin). lia.
      - apply chain_past_end in Hch as [_ ->]; lia. }
    split.
    + intros (s & [->|Hs]%elem_of_cons & Hd).
      * unfold seg_start, seg_end in Hd; simpl in Hd. lia.
      * assert (covered segs d) as Hc by (by exists s).
        apply IH in Hc. lia.
    + intros Hd.
      destruct (Z.le_gt_cases d (Z.min (cs + delta) e)) as [Hin|Hout].
      * exists (cs, Z.min (cs + delta) e). split; [left|].
        unfold seg_start, seg_end; simpl. lia.
      * destruct (proj2 (IH d)) as (s & Hs & Hds); [lia|].
        exists s. split; [by right|done].
Qed.

(** The loop leaves with [current_start = e], the end date outside every
    segment, exactly when the stride [delta + 1] divides the span. *)
Lemma chain_fin_end cs segs fin :
  chain delta e cs segs fin → cs ≤ e →
  (fin = e ↔ (e - cs) mod (delta + 1) = 0).
Proof.
  induction 1 as [cs Hge|cs segs fin Hlt Hch IH]; intros Hle.
  - replace (e - cs) with 0 by lia. rewrite Z.mod_0_l by lia. lia.
  - destruct (Z.le_gt_cases (Z.min (cs + delta) e + 1) e) as [Hin|Hout].
    + rewrite (IH Hin).
      replace (Z.min (cs + delta) e) with (cs + delta) by lia.
      replace (e - cs) with (e - (cs + delta + 1) + 1 * (delta + 1)) by lia.
      by rewrite Z.mod_add by lia.
    + apply chain_past_end in Hch as [_ ->]; [|lia].
      rewrite Z.mod_small by lia. lia.
Qed.

(** The number of segments is the span divided by the stride, rounded up. *)
Lemma chain_length cs segs fin :
  chain delta e cs segs fin → cs ≤ e →
  (segs ≠ [] → (Z.of_nat (length segs) - 1) * (delta + 1) < e - cs)
  ∧ e - cs ≤ Z.of_nat (length segs) * (delta + 1).
Proof.
  induction 1 as [cs Hge|cs segs fin Hlt Hch IH]; intros Hle; simpl length.
  - split; [done|simpl; lia].
  - destruct (Z.le_gt_cases (Z.min (cs + delta) e + 1) e) as [Hin|Hout].
    + destruct (IH Hin) as [IH1 IH2]. split; [intros _|nia].
      destruct segs as [|s0 segs]; [simpl; lia|].
      specialize (IH1 ltac:(done)). simpl length in *. nia.
    + apply chain_past_end in Hch as [-> _]; [|lia]. simpl. split; nia.
Qed.

End chain_facts.

(** ** The segmenter on its three paths *)

Lemma divide_num_segments fuel s e g n :
  n ≠ 0 →
  divide_timeframe_range fuel s e g (Some n)
  = segment_loop fuel ((e - s) / n) e s [].
Proof.
  intros Hn. unfold divide_timeframe_range, truthy.
  by destruct (Z.eqb_spec n 0).
Qed.

Lemma divide_daily fuel s e :
  divide_timeframe_range fuel s e "d" None = segment_loop fuel 269 e s [].
Proof. reflexivity. Qed.

Lemma divide_weekly fuel s e :
  divide_timeframe_range fuel s e "w" None = segment_loop fuel 1889 e s [].
Proof. reflexivity. Qed.


(** What the loop does cover: every day from the start up to the end date,
    the end date itself only when the stride does not divide the span. *)
Lemma segment_loop_coverage fuel delta s e segs :
  0 ≤ delta → s ≤ e →
  segment_loop fuel delta e s [] = Ret segs →
  contiguous segs
  ∧ ∀ d, covered segs d ↔
         s ≤ d ∧ (if decide ((e - s) mod (delta + 1) = 0) then d < e else d ≤ e).
Proof.
  intros Hd Hle (new & fin & -> & Hch)%segment_loop_chain. simpl.
  split; [by eapply chain_contiguous|].
  intros d. rewrite (chain_covered _ _ Hd _ _ _ Hch).
  pose proof (chain_fin _ _ _ _ _ Hch Hle) as Hfin.
  pose proof (chain_fin_end _ _ Hd _ _ _ Hch Hle) as Hend.
  case_decide; [|assert (fin ≠ e) by tauto]; lia.
Qed.

(** With an explicit count [n >= 1] the loop never returns more than [n]
    segments. *)
Lemma segment_count_le fuel s e g n segs :
  1 ≤ n → s ≤ e →
  divide_timeframe_range fuel s e g (Some n) = Ret segs →
  Z.of_nat (length segs) ≤ n.
Proof.
  intros Hn Hle. rewrite divide_num_segments by lia.
  intros (new & fin & -> & Hch)%segment_loop_chain. simpl.
  assert (0 ≤ (e - s) / n) as Hd by (apply Z.div_pos; lia).
  destruct (chain_length _ _ Hd _ _ _ Hch Hle) as [Hlen _].
  destruct new as [|s0 new]; [simpl; lia|].
  specialize (Hlen ltac:(done)).
  pose proof (Z.mul_succ_div_gt (e - s) n ltac:(lia)) as Hdiv.
  nia.
Qed.

(** Away from the last days of year 9999 and with fuel for one iteration
    per day of the span, the loop returns. *)
Lemma divide_granularity_total fuel s e g :
  g = "d" ∨ g = "w" →
  Date.MINORD ≤ s → e + 1889 < Date.MAXORD → (Z.to_nat (e - s) ≤ fuel)%nat →
  is_Ret (divide_timeframe_range fuel s e g None).
Proof.
  intros [-> | ->] Hs He Hfuel.
  - rewrite divide_daily. apply segment_loop_total; lia.
  - rewrite divide_weekly. apply segment_loop_total; lia.
Qed.

(** ** The claims about the segmenter *)

(** C3 (coverage, code defect).  The loop guard is
    [current_start < end_date_obj]: when the day after a segment's end is the
    end date itself, the loop stops and the end date belongs to no segment.
    For 2020-01-01 .. 2020-09-27 and granularity "d" the only segment ends on
    2020-09-26, so the segments do not union to the requested range. *)
Theorem divide_timeframe_range_drops_end_date :
  divide_timeframe_range 5 (Date.ymd 2020 1 1) (Date.ymd 2020 9 27) "d" None
  = Ret [(Date.ymd 2020 1 1, Date.ymd 2020 9 26)]
  ∧ ¬ covered [(Date.ymd 2020 1 1, Date.ymd 2020 9 26)] (Date.ymd 2020 9 27).
Proof.
  split; [by vm_compute|].
  intros (s & ->%list_elem_of_singleton & Hs).
  vm_compute in Hs. destruct Hs as [_ Hs]. by apply Hs.
Qed.

(** C4 (degenerate range, code defect).  With [start == end] the loop guard
    is false at once: on the "d" and "w" paths the segmenter returns no
    segment at all, while the fallback path returns the one degenerate
    segment.  [get_data] then has nothing to concatenate and raises
    [ValueError]. *)
Theorem divide_timeframe_range_same_day (fuel : nat) (d : Z) :
  divide_timeframe_range fuel d d "d" None = Ret []
  ∧ divide_timeframe_range fuel d d "w" None = Ret []
  ∧ divide_timeframe_range fuel d d "m" None = Ret [(d, d)]
  ∧ ∀ pytrends keywords geo youtube,
      get_data pytrends fuel keywords (d, d) geo youtube "d" = Raise ValueError.
Proof.
  assert (∀ delta, segment_loop fuel delta d d [] = Ret []) as Hloop.
  { intros delta. destruct fuel; simpl; by rewrite Z.ltb_irrefl. }
  rewrite divide_daily, divide_weekly, !Hloop.
  repeat split. intros pytrends keywords geo youtube.
  unfold get_data. simpl. by rewrite divide_daily, Hloop.
Qed.

(** C5 (explicit count, code defect).  The stride of the loop is
    [total_days // num_segments + 1] days, not [total_days // num_segments]:
    for a span of 10 days and [num_segments = 5] the segmenter returns 4
    segments. *)
Theorem divide_timeframe_range_count_mismatch :
  divide_timeframe_range 20 (Date.ymd 2020 1 1) (Date.ymd 2020 1 11) "d" (Some 5)
  = Ret [(Date.ymd 2020 1 1, Date.ymd 2020 1 3);
         (Date.ymd 2020 1 4, Date.ymd 2020 1 6);
         (Date.ymd 2020 1 7, Date.ymd 2020 1 9);
         (Date.ymd 2020 1 10, Date.ymd 2020 1 11)].
Proof. by vm_compute. Qed.

(** C6 (segment sizing).  Without an explicit count, every returned segment
    spans at most 269 days for granularity "d" and at most 1889 days for "w";
    and the segmenter does return for every range that starts on or after
    0001-01-01 and ends early enough in year 9999. *)
Theorem divide_timeframe_range_segment_cap
    (fuel : nat) (s e : Z) (g : string) (cap : Z) :
  (g = "d" ∧ cap = 269) ∨ (g = "w" ∧ cap = 1889) →
  (∀ segs, divide_timeframe_range fuel s e g None = Ret segs →
           Forall (λ seg, 0 ≤ seg_end seg - seg_start seg ≤ cap) segs)
  ∧ (Date.MINORD ≤ s → e + 1889 < Date.MAXORD →
     (Z.to_nat (e - s) ≤ fuel)%nat →
     is_Ret (divide_timeframe_range fuel s e g None)).
Proof.
  intros Hg. split.
  - intros segs Hsegs.
    assert (segment_loop fuel cap e s [] = Ret segs) as Hloop.
    { destruct Hg as [[-> ->]|[-> ->]]; by rewrite <- Hsegs. }
    apply segment_loop_chain in Hloop as (new & fin & -> & Hch). simpl.
    eapply Forall_impl; [eapply (chain_Forall cap e); [|exact Hch]|].
    + destruct Hg as [[_ ->]|[_ ->]]; lia.
    + simpl. intros seg. lia.
  - intros. apply divide_granularity_total; [|done..].
    destruct Hg as [[-> _]|[-> _]]; auto.
Qed.

Lemma divide_timeframe_range_segment_cap_witness :
  Forall (λ seg, 0 ≤ seg_end seg - seg_start seg ≤ 269)
         [(Date.ymd 2020 1 1, Date.ymd 2020 9 26);
          (Date.ymd 2020 9 27, Date.ymd 2021 6 23);
          (Date.ymd 2021 6 24, Date.ymd 2021 12 31)]
  ∧ is_Ret (divide_timeframe_range 1000 (Date.ymd 2020 1 1)
                                   (Date.ymd 2021 12 31) "d" None).
Proof.
  destruct (divide_timeframe_range_segment_cap
              1000 (Date.ymd 2020 1 1) (Date.ymd 2021 12 31) "d" 269)
    as [Hcap Htotal]; [by left|].
  split.
  - apply Hcap. by vm_compute.
  - apply Htotal; vm_compute; [discriminate|reflexivity|lia].
Defined.

(** * Properties of the granularity inferrer *)

Lemma date_diffs_length idx :
  length (date_diffs idx) = pred (length idx).
Proof.
  unfold date_diffs. rewrite length_fmap.
  destruct idx as [|t idx]; [done|]. simpl.
  revert t. induction idx as [|t' idx IH]; intros t; [done|].
  unfold dropna in *. simpl. by rewrite IH.
Qed.

Lemma date_diffs_uniform k idx :
  uniform_gap k idx → Forall (λ g, g = k) (date_diffs idx).
Proof.
  unfold date_diffs. destruct idx as [|t idx]; [constructor|]. simpl.
  revert t. induction idx as [|t' idx IH]; intros t Hu; [constructor|].
  unfold dropna in *. simpl. constructor.
  - rewrite (Hu 0%nat t t') by done. unfold td_days.
    apply Z.div_mul. done.
  - apply IH. intros i a b Ha Hb. by apply (Hu (S i)).
Qed.

Lemma occurrences_elem_of x l : (0 < occurrences x l)%nat ↔ x ∈ l.
Proof.
  unfold occurrences. split.
  - intros Hlen.
    destruct (filter (λ y, y = x) l) as [|y f] eqn:Hf; [simpl in Hlen; lia|].
    assert (y ∈ filter (λ y, y = x) l) as Hy by (rewrite Hf; left).
    apply list_elem_of_filter in Hy as [-> Hy]. done.
  - intros Hx.
    assert (x ∈ filter (λ y, y = x) l) as Hy by (by apply list_elem_of_filter).
    destruct (filter (λ y, y = x) l); [by apply elem_of_nil in Hy|simpl; lia].
Qed.

Lemma max_list_with_attained {A} (f : A → nat) (l : list A) :
  l ≠ [] → ∃ x, x ∈ l ∧ f x = max_list_with f l.
Proof.
  induction l as [|a l IH]; [done|]. intros _. simpl.
  destruct l as [|b l].
  - exists a. split; [left|simpl; lia].
  - destruct IH as (x & Hx & Hfx); [done|].
    destruct (Nat.max_spec (f a) (max_list_with f (b :: l))) as [[_ ->]|[_ ->]].
    + exists x. split; [by right|done].
    + exists a. split; [left|done].
Qed.

Lemma max_list_with_ge {A} (f : A → nat) (l : list A) x :
  x ∈ l → (f x ≤ max_list_with f l)%nat.
Proof. induction 1; simpl; lia. Qed.

(** [mode().iloc[0]] of a non-empty series is its mode. *)
Lemma common_diff_is_mode l :
  l ≠ [] → ∃ m, iloc_first (series_mode l) = Ret m ∧ is_mode m l.
Proof.
  intros Hl. unfold series_mode.
  set (top := max_list_with (λ x, occurrences x l) l).
  set (cands := remove_dups (filter (λ x, occurrences x l = top) l)).
  assert (∀ x, x ∈ merge_sort Z.le cands ↔ x ∈ l ∧ occurrences x l = top)
    as Hin.
  { intros x. rewrite merge_sort_Permutation. unfold cands.
    rewrite elem_of_remove_dups, list_elem_of_filter. tauto. }
  pose proof (StronglySorted_merge_sort Z.le cands) as Hsorted.
  destruct (max_list_with_attained (λ x, occurrences x l) l Hl) as (x0 & Hx0 & Htop).
  destruct (merge_sort Z.le cands) as [|m sorted] eqn:Hms.
  { exfalso. eapply elem_of_nil, Hin. split; [exact Hx0|exact Htop]. }
  exists m. split; [done|].
  destruct (proj1 (Hin m)) as [Hm Hmtop]; [left|].
  split; [done|split].
  - intros x. rewrite Hmtop.
    destruct (decide (x ∈ l)) as [Hx|Hx].
    + by apply (max_list_with_ge (λ x, occurrences x l)).
    + destruct (occurrences x l) eqn:Hocc; [lia|].
      exfalso. apply Hx, occurrences_elem_of. lia.
  - intros x Hx.
    assert (x ∈ l) as Hxl.
    { apply occurrences_elem_of. rewrite Hx. by apply occurrences_elem_of. }
    assert (x ∈ m :: sorted) as [->|Hxs]%elem_of_cons; [|lia|].
    { apply Hin. split; [done|congruence]. }
    apply StronglySorted_inv in Hsorted as [_ Hall].
    by eapply Forall_forall in Hall.
Qed.

Lemma determine_by_mode {C} (data : Frame C) m :
  iloc_first (series_mode (date_diffs (index data))) = Ret m →
  determine_overall_granularity_from_data data
  = Ret (if decide (m = 1) then daily
         else if decide (m ≤ 7) then weekly else monthly).
Proof.
  intros Hm. unfold determine_overall_granularity_from_data. rewrite Hm. simpl.
  destruct (Z.eqb_spec m 1); case_decide; try done.
  destruct (Z.leb_spec m 7); case_decide; done || lia.
Qed.

(** ** The claims about the granularity inferrer *)

(** C8 (classification).  For a series with at least two timestamps the
    inferrer returns a label, decided by the mode [m] of the day gaps between
    consecutive timestamps: daily when [m = 1], weekly when [m <= 7] and
    [m <> 1], monthly otherwise.  Uniform gaps of 1, 7 and 30 days give daily,
    weekly and monthly. *)
Theorem determine_overall_granularity_classification
    {C : Type} (data : Frame C) :
  (2 ≤ length (index data))%nat →
  (∃ m, is_mode m (date_diffs (index data))
        ∧ determine_overall_granularity_from_data data
          = Ret (if decide (m = 1) then daily
                 else if decide (m ≤ 7) then weekly else monthly))
  ∧ (uniform_gap 1 (index data) →
     determine_overall_granularity_from_data data = Ret daily)
  ∧ (uniform_gap 7 (index data) →
     determine_overall_granularity_from_data data = Ret weekly)
  ∧ (uniform_gap 30 (index data) →
     determine_overall_granularity_from_data data = Ret monthly).
Proof.
  intros Hlen.
  assert (date_diffs (index data) ≠ []) as Hne.
  { intros Hnil. pose proof (date_diffs_length (index data)) as Hl.
    rewrite Hnil in Hl. simpl in Hl. lia. }
  destruct (common_diff_is_mode _ Hne) as (m & Hm & Hmode).
  pose proof (determine_by_mode data m Hm) as Hres.
  assert (∀ k, uniform_gap k (index data) → m = k) as Huni.
  { intros k Hk%date_diffs_uniform. destruct Hmode as [Hin _].
    by eapply Forall_forall in Hk. }
  split; [by exists m|].
  repeat split; intros ->%Huni; exact Hres.
Qed.

Lemma determine_overall_granularity_classification_witness :
  determine_overall_granularity_from_data
    (mkFrame [0; 7 * NS_PER_DAY; 14 * NS_PER_DAY] (∅ : gmap string (list Qc)))
  = Ret weekly.
Proof.
  apply (determine_overall_granularity_classification
           (mkFrame [0; 7 * NS_PER_DAY; 14 * NS_PER_DAY] ∅)).
  - simpl. lia.
  - intros [|[|[|i]]] t t'; simpl; try done; intros [= <-] [= <-]; reflexivity.
Defined.

(** C9 (too few timestamps).  With fewer than two timestamps there is no
    gap, [mode()] is empty and [.iloc[0]] raises [IndexError]: the inferrer
    returns no label. *)
Theorem determine_overall_granularity_too_short {C : Type} (data : Frame C) :
  (length (index data) < 2)%nat →
  determine_overall_granularity_from_data data = Raise IndexError
  ∧ ∀ label, determine_overall_granularity_from_data data ≠ Ret label.
Proof.
  intros Hlen.
  assert (determine_overall_granularity_from_data data = Raise IndexError) as ->.
  { unfold determine_overall_granularity_from_data.
    destruct (index data) as [|t [|t' idx]]; [done|done|simpl in Hlen; lia]. }
  split; [done|]. intros label. discriminate.
Qed.

Lemma determine_overall_granularity_too_short_witness :
  determine_overall_granularity_from_data
    (mkFrame [5 * NS_PER_DAY] (∅ : gmap string (list Qc)))
  = Raise IndexError.
Proof.
  apply (determine_overall_granularity_too_short
           (mkFrame [5 * NS_PER_DAY] ∅)).
  simpl. lia.
Defined.

(** * Properties of the fetch and rescale pipeline *)

Lemma frame_eq {C} (f g : Frame C) :
  index f = index g → columns f = columns g → f = g.
Proof. destruct f, g; simpl; by intros -> ->. Qed.

(** ** Zero-fill *)

Lemma zero_fill_index keywords df :
  index (zero_fill keywords df) = index df.
Proof.
  unfold zero_fill. revert df.
  induction keywords as [|kw ks IH]; intros df; simpl; [done|].
  rewrite IH. by case_decide.
Qed.

Lemma zero_fill_lookup keywords df k :
  columns (zero_fill keywords df) !! k
  = match columns df !! k with
    | Some c => Some c
    | None => if decide (k ∈ keywords)
              then Some (replicate (length (index df)) 0%Qc) else None
    end.
Proof.
  unfold zero_fill. revert df.
  induction keywords as [|kw ks IH]; intros df; simpl.
  { destruct (columns df !! k); [done|].
    by destruct (decide (k ∈ [])) as [?%elem_of_nil|]. }
  rewrite IH.
  destruct (decide (columns df !! kw = None)) as [Hkw|Hkw];
    unfold setitem_scalar, setitem; simpl.
  - destruct (decide (k = kw)) as [->|Hne].
    + rewrite lookup_insert_eq, Hkw. by rewrite decide_True by left.
    + rewrite lookup_insert_ne by done.
      destruct (columns df !! k); [done|].
      destruct (decide (k ∈ ks)) as [Hin|Hnin].
      * by rewrite decide_True by (by right).
      * rewrite decide_False; [done|]. by intros [?|?]%elem_of_cons.
  - destruct (columns df !! k) eqn:Hk; [done|].
    assert (k ≠ kw) by congruence.
    destruct (decide (k ∈ ks)) as [Hin|Hnin].
    + by rewrite decide_True by (by right).
    + rewrite decide_False; [done|]. by intros [?|?]%elem_of_cons.
Qed.

Lemma zero_fill_wf keywords df : frame_wf df → frame_wf (zero_fill keywords df).
Proof.
  intros Hwf k c. rewrite zero_fill_lookup, zero_fill_index.
  destruct (columns df !! k) as [c'|] eqn:Hk.
  - intros [= <-]. by apply (Hwf k).
  - case_decide; [|done]. intros [= <-]. by rewrite length_replicate.
Qed.

Lemma frame_ready_column keywords df kw :
  frame_ready keywords df → kw ∈ keywords → is_Some (columns df !! kw).
Proof. intros [_ Hcols] Hkw. by eapply Forall_forall in Hcols. Qed.

Lemma zero_fill_ready keywords df :
  frame_wf df → frame_ready keywords (zero_fill keywords df).
Proof.
  intros Hwf. split; [by apply zero_fill_wf|].
  apply Forall_forall. intros kw Hkw. rewrite zero_fill_lookup.
  destruct (columns df !! kw); [done|]. by rewrite decide_True.
Qed.

Lemma fetch_segments_ready pytrends keywords segments geo youtube :
  source_wf pytrends keywords segments geo youtube →
  Forall (frame_ready keywords)
         (fetch_segments pytrends keywords segments geo youtube).
Proof.
  intros Hsrc. unfold fetch_segments. apply Forall_fmap.
  eapply Forall_impl; [exact Hsrc|].
  intros seg Hwf. simpl. by apply zero_fill_ready.
Qed.

(** ** The scale factor *)

Lemma df_empty_with_column {C} (df : Frame C) k :
  is_Some (columns df !! k) →
  df_empty df = bool_decide (length (index df) = 0%nat).
Proof.
  intros Hk. unfold df_empty.
  rewrite (bool_decide_eq_false_2 (size (columns df) = 0%nat)).
  - by rewrite orb_false_r.
  - intros Hsz%map_size_empty_iff. rewrite Hsz, lookup_empty in Hk. by destruct Hk.
Qed.

Lemma column_first_last keywords df kw :
  frame_ready keywords df → kw ∈ keywords → df_empty df = false →
  ∃ c h t, columns df !! kw = Some c ∧ head c = Some h ∧ last c = Some t.
Proof.
  intros Hready Hkw Hne. pose proof Hready as [Hwf _].
  destruct (frame_ready_column _ _ _ Hready Hkw) as [c Hc].
  rewrite (df_empty_with_column df kw) in Hne by eauto.
  apply bool_decide_eq_false in Hne.
  pose proof (Hwf kw c Hc) as Hlen. simpl in Hlen.
  assert (c ≠ []) as Hnil by (intros ->; simpl in Hlen; lia).
  destruct (proj2 (head_is_Some c) Hnil) as [h Hh].
  destruct (proj2 (last_is_Some c) Hnil) as [t Ht].
  by exists c, h, t.
Qed.

Lemma scale_factor_scale_of keywords cur prev kw :
  frame_ready keywords cur → frame_ready keywords prev → kw ∈ keywords →
  scale_factor cur prev kw = Ret (scale_of cur prev kw).
Proof.
  intros Hcur Hprev Hkw.
  unfold scale_factor, scale_of, head_value, tail_value, getitem, iloc_first, iloc_last.
  destruct (df_empty cur) eqn:Hec; destruct (df_empty prev) eqn:Hep; simpl;
    try (destruct (column_first_last _ _ _ Hcur Hkw Hec)
           as (cc & hc & tc & Hcc & Hhc & _); rewrite Hcc; simpl; rewrite Hhc; simpl);
    try (destruct (column_first_last _ _ _ Hprev Hkw Hep)
           as (cp & hp & tp & Hcp & _ & Htp); rewrite Hcp; simpl; rewrite Htp; simpl);
    done.
Qed.

(** ** One boundary: the inner loop *)

Lemma series_mul_length c s : length (series_mul c s) = length c.
Proof. apply length_fmap. Qed.

Lemma series_mul_1 c : series_mul c 1%Qc = c.
Proof.
  unfold series_mul. rewrite <- (list_fmap_id c) at 2.
  apply list_fmap_ext. intros _ v _. simpl. apply Qcmult_1_r.
Qed.

Lemma rescaled_frame_lookup keywords cur prev k :
  columns (rescaled_frame keywords cur prev) !! k
  = (λ c, if decide (k ∈ keywords)
          then series_mul c (scale_of cur prev k) else c)
    <$> columns prev !! k.
Proof.
  unfold rescaled_frame. simpl. rewrite map_lookup_imap.
  by destruct (columns prev !! k).
Qed.

Lemma rescaled_frame_nil cur prev : rescaled_frame [] cur prev = prev.
Proof.
  apply frame_eq; [done|]. apply map_eq. intros k.
  rewrite rescaled_frame_lookup.
  destruct (columns prev !! k); simpl; [|done].
  by destruct (decide (k ∈ [])) as [?%elem_of_nil|].
Qed.

Lemma rescaled_frame_ready keywords ks cur prev :
  frame_ready keywords prev → frame_ready keywords (rescaled_frame ks cur prev).
Proof.
  intros [Hwf Hcols]. split.
  - intros k c. rewrite rescaled_frame_lookup.
    destruct (columns prev !! k) as [c'|] eqn:Hk; simpl; [|done].
    intros [= <-]. pose proof (Hwf k c' Hk) as Hlen. simpl in Hlen.
    case_decide; by rewrite ?series_mul_length.
  - eapply Forall_impl; [exact Hcols|]. intros kw [c Hc].
    rewrite rescaled_frame_lookup, Hc. by eexists.
Qed.

Lemma tail_value_rescaled keywords ks cur prev kw :
  frame_ready keywords prev → kw ∈ keywords →
  tail_value (rescaled_frame ks cur prev) kw
  = if decide (kw ∈ ks)
    then (tail_value prev kw * scale_of cur prev kw)%Qc
    else tail_value prev kw.
Proof.
  intros Hprev Hkw.
  pose proof (rescaled_frame_ready keywords ks cur prev Hprev) as Hnew.
  unfold tail_value.
  rewrite (df_empty_with_column (rescaled_frame ks cur prev) kw)
    by (by eapply frame_ready_column).
  rewrite (df_empty_with_column prev kw) by (by eapply frame_ready_column).
  rewrite rescaled_frame_lookup.
  change (index (rescaled_frame ks cur prev)) with (index prev).
  case_bool_decide.
  { case_decide; [by rewrite Qcmult_0_l|done]. }
  destruct (columns prev !! kw) as [c|]; simpl.
  - case_decide; [|done]. unfold series_mul. rewrite fmap_last.
    destruct (last c); simpl; [done|by rewrite Qcmult_0_l].
  - case_decide; [by rewrite Qcmult_0_l|done].
Qed.

(** A keyword met a second time at the same boundary is rescaled by 1. *)
Lemma scale_of_rescaled keywords ks cur prev kw :
  frame_ready keywords prev → kw ∈ keywords →
  scale_of cur (rescaled_frame ks cur prev) kw
  = if decide (kw ∈ ks) then 1%Qc else scale_of cur prev kw.
Proof.
  intros Hprev Hkw. unfold scale_of at 1.
  rewrite (tail_value_rescaled keywords) by done.
  destruct (decide (kw ∈ ks)) as [Hin|Hnin]; [|done].
  unfold scale_of.
  destruct (decide (tail_value prev kw ≠ 0%Qc)) as [Ht|Ht].
  - rewrite Qcmult_div_r by done.
    destruct (decide (head_value cur kw ≠ 0%Qc)) as [Hh|Hh]; [|done].
    unfold Qcdiv. by apply Qcmult_inv_r.
  - rewrite Qcmult_1_r. by rewrite decide_False.
Qed.

Lemma rescaled_frame_snoc keywords ks cur prev kw c :
  frame_ready keywords prev → kw ∈ keywords →
  columns (rescaled_frame ks cur prev) !! kw = Some c →
  setitem (rescaled_frame ks cur prev) kw
          (series_mul c (scale_of cur (rescaled_frame ks cur prev) kw))
  = rescaled_frame (ks ++ [kw]) cur prev.
Proof.
  intros Hprev Hkw Hc. apply frame_eq; [done|]. apply map_eq. intros k.
  unfold setitem. cbn [columns].
  destruct (decide (k = kw)) as [->|Hne].
  - rewrite lookup_insert_eq.
    rewrite (scale_of_rescaled keywords) by done.
    rewrite rescaled_frame_lookup in Hc |- *.
    destruct (columns prev !! kw) as [c0|]; simpl in *; [|done].
    injection Hc as <-.
    rewrite (decide_True (P := kw ∈ ks ++ [kw])) by (apply elem_of_app; right; left).
    case_decide; [by rewrite series_mul_1|done].
  - rewrite lookup_insert_ne by done.
    rewrite !rescaled_frame_lookup.
    destruct (columns prev !! k); simpl; [|done].
    destruct (decide (k ∈ ks)) as [Hin|Hnin].
    + by rewrite decide_True by (apply elem_of_app; by left).
    + rewrite decide_False; [done|].
      by intros [?|?%list_elem_of_singleton]%elem_of_app.
Qed.

Section inner_loop.
Context (keywords : list string) (i : nat) (trends_data : list DataFrame).
Context (cur prev : DataFrame).
Context (Hi : (1 ≤ i)%nat).
Context (Hcur : trends_data !! i = Some cur).
Context (Hprev : trends_data !! (i - 1)%nat = Some prev).
Context (Hcur_ready : frame_ready keywords cur).
Context (Hprev_ready : frame_ready keywords prev).

Lemma rescale_step_closed ks kw :
  kw ∈ keywords →
  rescale_step i (<[(i - 1)%nat := rescaled_frame ks cur prev]> trends_data) kw
  = Ret (<[(i - 1)%nat := rescaled_frame (ks ++ [kw]) cur prev]> trends_data).
Proof.
  intros Hkw. unfold rescale_step, frame_at.
  rewrite list_lookup_insert_ne by lia. rewrite Hcur. simpl.
  rewrite list_lookup_insert_eq by (by eapply lookup_lt_Some). simpl.
  pose proof (rescaled_frame_ready keywords ks cur prev Hprev_ready) as Hnew.
  rewrite (scale_factor_scale_of keywords) by done. simpl.
  destruct (frame_ready_column _ _ _ Hnew Hkw) as [c Hc].
  unfold getitem. rewrite Hc. simpl.
  rewrite list_insert_insert_eq.
  by rewrite (rescaled_frame_snoc keywords).
Qed.

Lemma inner_loop_closed ks : ∀ done,
  (∀ kw, kw ∈ ks → kw ∈ keywords) →
  for_each (rescale_step i) ks
           (<[(i - 1)%nat := rescaled_frame done cur prev]> trends_data)
  = Ret (<[(i - 1)%nat := rescaled_frame (done ++ ks) cur prev]> trends_data).
Proof.
  induction ks as [|kw ks IH]; intros done Hsub; simpl.
  - by rewrite app_nil_r.
  - rewrite rescale_step_closed by (apply Hsub; left). simpl.
    rewrite IH by (intros; apply Hsub; by right).
    by rewrite <- app_assoc.
Qed.

Lemma boundary_closed :
  for_each (rescale_step i) keywords trends_data
  = Ret (<[(i - 1)%nat := rescaled_frame keywords cur prev]> trends_data).
Proof.
  rewrite <- (list_insert_id trends_data (i - 1)%nat prev Hprev) at 1.
  rewrite <- (rescaled_frame_nil cur prev) at 1.
  by rewrite inner_loop_closed.
Qed.

End inner_loop.

(** ** All boundaries: the outer loop *)

Lemma rescaled_segments_lookup keywords raw i :
  rescaled_segments keywords raw !! i
  = (λ prev, match raw !! S i with
             | Some cur => rescaled_frame keywords cur prev
             | None => prev
             end) <$> raw !! i.
Proof. unfold rescaled_segments. apply list_lookup_imap. Qed.

Lemma rescaled_segments_index keywords raw i df :
  rescaled_segments keywords raw !! i = Some df →
  ∃ df0, raw !! i = Some df0 ∧ index df = index df0.
Proof.
  rewrite rescaled_segments_lookup.
  destruct (raw !! i) as [df0|]; simpl; [|done].
  intros [= <-]. exists df0. split; [done|]. by destruct (raw !! S i).
Qed.

Section outer_loop.
Context (keywords : list string) (raw : list DataFrame).
Context (Hraw : Forall (frame_ready keywords) raw).

Lemma outer_loop_closed m : ∀ j td,
  (j + m = length raw - 1)%nat →
  length td = length raw →
  (∀ i, td !! i = if decide (i < j)%nat
                  then rescaled_segments keywords raw !! i else raw !! i) →
  for_each (λ td i, for_each (rescale_step i) keywords td) (seq (S j) m) td
  = Ret (rescaled_segments keywords raw).
Proof.
  induction m as [|m IH]; intros j td Hjm Hlen Htd; simpl.
  - f_equal. apply list_eq. intros i. rewrite Htd.
    case_decide as Hij; [done|].
    rewrite rescaled_segments_lookup.
    destruct (raw !! i) as [df|] eqn:Hi; simpl; [|done].
    apply lookup_lt_Some in Hi.
    by rewrite (lookup_ge_None_2 raw (S i)) by lia.
  - destruct (lookup_lt_is_Some_2 raw (S j)) as [cur Hcur]; [lia|].
    destruct (lookup_lt_is_Some_2 raw j) as [prev Hprev]; [lia|].
    assert (for_each (rescale_step (S j)) keywords td
            = Ret (<[j := rescaled_frame keywords cur prev]> td)) as ->.
    { pose proof (boundary_closed keywords (S j) td cur prev) as Hb.
      replace (S j - 1)%nat with j in Hb by lia.
      apply Hb.
      - lia.
      - rewrite Htd. by rewrite decide_False by lia.
      - rewrite Htd. by rewrite decide_False by lia.
      - eapply Forall_lookup_1; [exact Hraw|exact Hcur].
      - eapply Forall_lookup_1; [exact Hraw|exact Hprev]. }
    cbn [rbind]. apply IH.
    + lia.
    + by rewrite length_insert.
    + intros i.
      destruct (decide (i = j)) as [->|Hne].
      * rewrite list_lookup_insert_eq by lia.
        rewrite decide_True by lia.
        by rewrite rescaled_segments_lookup, Hprev, Hcur.
      * rewrite list_lookup_insert_ne by done. rewrite Htd.
        destruct (decide (i < j)%nat), (decide (i < S j)%nat); done || lia.
Qed.

(** The rescale pass never raises on zero-filled frames, and its result
    is the closed form. *)
Lemma rescale_segments_closed :
  rescale_segments keywords (length raw) raw
  = Ret (rescaled_segments keywords raw).
Proof.
  unfold rescale_segments. apply outer_loop_closed; [lia|done|].
  intros i. by rewrite decide_False by lia.
Qed.

End outer_loop.

(** ** Concatenation *)

Lemma concat_cells_length k df :
  frame_wf df → length (concat_cells k df) = length (index df).
Proof.
  intros Hwf. unfold concat_cells.
  destruct (columns df !! k) as [c|] eqn:Hk.
  - rewrite length_fmap. by apply (Hwf k).
  - by rewrite length_replicate.
Qed.

Lemma pd_concat_Ret objs combined :
  pd_concat objs = Ret combined →
  objs ≠ []
  ∧ index combined = objs ≫= index
  ∧ ∀ k, (∃ df, df ∈ objs ∧ is_Some (columns df !! k)) →
         columns combined !! k = Some (objs ≫= concat_cells k).
Proof.
  intros Hconcat.
  assert (objs ≠ []) as Hne by (by intros ->).
  assert (combined
          = mkFrame (objs ≫= index)
              (set_to_map (λ k, (k, objs ≫= concat_cells k))
                 (⋃ ((λ df, dom (columns df)) <$> objs) : gset string)))
    as ->.
  { destruct objs; [done|]. by injection Hconcat as <-. }
  split; [done|]. split; [done|]. intros k (df & Hdf & Hk). cbn [columns].
  assert (k ∈ (⋃ ((λ df, dom (columns df)) <$> objs) : gset string)) as Hin.
  { apply elem_of_union_list. exists (dom (columns df)).
    split; [|by apply elem_of_dom].
    by apply (list_elem_of_fmap_2 (λ df, dom (columns df)) objs df). }
  apply lookup_set_to_map; [by intros y y' _ _|].
  by exists k.
Qed.

Lemma slice_bind {A B} (f : A → list B) (g : A → nat) (l : list A) :
  Forall (λ x, length (f x) = g x) l →
  ∀ i x, l !! i = Some x →
    take (g x) (drop (sum_list (g <$> take i l)) (l ≫= f)) = f x.
Proof.
  induction 1 as [|y l Hy _ IH]; intros i x Hi; [done|].
  rewrite bind_cons. destruct i as [|i]; simpl in *.
  - injection Hi as <-. by apply take_app_length'.
  - rewrite drop_app_add' by done. by apply IH.
Qed.

Lemma bind_index_length (l : list DataFrame) :
  length (l ≫= index) = sum_list ((λ df, length (index df)) <$> l).
Proof.
  induction l as [|df l IH]; [done|].
  rewrite bind_cons, length_app, IH. done.
Qed.

Lemma rescaled_segments_row_counts keywords raw :
  (λ df, length (index df)) <$> rescaled_segments keywords raw
  = (λ df, length (index df)) <$> raw.
Proof.
  apply list_eq. intros i. rewrite !list_lookup_fmap.
  rewrite rescaled_segments_lookup.
  destruct (raw !! i) as [df|]; simpl; [|done].
  by destruct (raw !! S i).
Qed.

Lemma rescaled_segments_ready keywords raw :
  Forall (frame_ready keywords) raw →
  Forall (frame_ready keywords) (rescaled_segments keywords raw).
Proof.
  intros Hraw. apply Forall_lookup. intros i df.
  rewrite rescaled_segments_lookup.
  destruct (raw !! i) as [df0|] eqn:Hi; simpl; [|done].
  pose proof (Forall_lookup_1 _ _ _ _ Hraw Hi) as Hready.
  intros [= <-]. destruct (raw !! S i); [|done].
  by apply rescaled_frame_ready.
Qed.

(** The rows of segment [i] in a combined column are the cells of that
    column in the rescaled frame of segment [i]. *)
Lemma segment_rows_rescaled keywords raw i df k :
  Forall (frame_ready keywords) raw →
  rescaled_segments keywords raw !! i = Some df →
  segment_rows raw i (rescaled_segments keywords raw ≫= concat_cells k)
  = concat_cells k df.
Proof.
  intros Hraw Hi. unfold segment_rows.
  destruct (rescaled_segments_index _ _ _ _ Hi) as (df0 & Hi0 & Hidx).
  rewrite Hi0. simpl. rewrite bind_index_length, fmap_take.
  rewrite <- (rescaled_segments_row_counts keywords raw), <- fmap_take, <- Hidx.
  apply (slice_bind (concat_cells k) (λ df, length (index df))); [|done].
  eapply Forall_impl; [by apply rescaled_segments_ready|].
  intros df' [Hwf _]. by apply concat_cells_length.
Qed.

(** ** A whole run of [get_data] *)

Lemma tail_value_column df kw c t :
  frame_wf df → columns df !! kw = Some c → last c = Some t →
  tail_value df kw = t.
Proof.
  intros Hwf Hc Ht. unfold tail_value.
  rewrite (df_empty_with_column df kw) by eauto.
  pose proof (Hwf kw c Hc) as Hlen. simpl in Hlen.
  rewrite bool_decide_eq_false_2.
  - rewrite Hc. simpl. by rewrite Ht.
  - intros Hz. rewrite Hz in Hlen. by destruct c.
Qed.

Lemma head_value_column df kw c h :
  frame_wf df → columns df !! kw = Some c → head c = Some h →
  head_value df kw = h.
Proof.
  intros Hwf Hc Hh. unfold head_value.
  rewrite (df_empty_with_column df kw) by eauto.
  pose proof (Hwf kw c Hc) as Hlen. simpl in Hlen.
  rewrite bool_decide_eq_false_2.
  - rewrite Hc. simpl. by rewrite Hh.
  - intros Hz. rewrite Hz in Hlen. by destruct c.
Qed.

Lemma tail_value_zero_column df kw n :
  columns df !! kw = Some (replicate n 0%Qc) → tail_value df kw = 0%Qc.
Proof.
  intros Hc. unfold tail_value. destruct (df_empty df); [done|].
  rewrite Hc. simpl.
  destruct (last (replicate n 0%Qc)) as [t|] eqn:Ht; [simpl|done].
  by apply last_Some_elem_of, elem_of_replicate_inv in Ht.
Qed.

Section run.
Context (pytrends : TrendReq) (fuel : nat) (keywords : list string).
Context (timeframe_range : Z * Z) (geo : string) (youtube : bool).
Context (granularity : string).
Context (segments : list Segment) (combined_data : CombinedFrame).
Context (trends_data : list DataFrame).

Context (Hsegments :
  divide_timeframe_range fuel timeframe_range.1 timeframe_range.2
                         granularity None = Ret segments).
Context (Hfetch :
  trends_data = fetch_segments pytrends keywords segments geo youtube).
Context (Hsource : source_wf pytrends keywords segments geo youtube).
Context (Hrun :
  get_data pytrends fuel keywords timeframe_range geo youtube granularity
  = Ret combined_data).

Lemma run_ready : Forall (frame_ready keywords) trends_data.
Proof. rewrite Hfetch. by apply fetch_segments_ready. Qed.

Lemma run_concat :
  pd_concat (rescaled_segments keywords trends_data) = Ret combined_data.
Proof.
  pose proof Hrun as H. unfold get_data in H. rewrite Hsegments in H.
  cbn [rbind] in H. rewrite <- Hfetch in H.
  replace (length segments) with (length trends_data) in H
    by (rewrite Hfetch; apply length_fmap).
  rewrite (rescale_segments_closed keywords trends_data run_ready) in H.
  cbn [rbind] in H.
  destruct (pd_concat (rescaled_segments keywords trends_data))
    as [c| |]; cbn [rbind] in H; try discriminate.
  destruct (determine_overall_granularity_from_data c);
    cbn [rbind] in H; try discriminate.
  by injection H as ->.
Qed.

(** The rows of segment [i] in column [k] of the result are the column
    [k] of the rescaled frame of segment [i]. *)
Lemma run_segment_rows i df k c :
  rescaled_segments keywords trends_data !! i = Some df →
  columns df !! k = Some c →
  ∃ col, columns combined_data !! k = Some col
         ∧ segment_rows trends_data i col = Some <$> c.
Proof.
  intros Hi Hk.
  destruct (pd_concat_Ret _ _ run_concat) as (_ & _ & Hcols).
  eexists. split.
  - apply Hcols. exists df. split; [by eapply list_elem_of_lookup_2|eauto].
  - rewrite (segment_rows_rescaled keywords trends_data i df k run_ready Hi).
    unfold concat_cells. by rewrite Hk.
Qed.

(** The rows of segment [i] in terms of the frames as fetched. *)
Lemma run_rows_closed i df k c :
  trends_data !! i = Some df →
  columns df !! k = Some c →
  ∃ col, columns combined_data !! k = Some col
         ∧ segment_rows trends_data i col
           = Some <$> match trends_data !! S i with
                      | Some cur => if decide (k ∈ keywords)
                                    then series_mul c (scale_of cur df k)
                                    else c
                      | None => c
                      end.
Proof.
  intros Hi Hk. eapply run_segment_rows.
  - rewrite rescaled_segments_lookup, Hi. reflexivity.
  - destruct (trends_data !! S i) as [cur|]; [|done].
    by rewrite rescaled_frame_lookup, Hk.
Qed.

End run.

(** ** The claims about the fetch and rescale pipeline *)

(** C2 (empty frames, as the code has it).  When the frame before the
    boundary is empty the scale factor is 1.  When only the frame after the
    boundary is empty, its first value is taken as 0 and the factor is
    [0 / tail]: 0 when the last value before the boundary is non-zero, 1 when
    it is zero. *)
Theorem scale_factor_empty_frames
    (keywords : list string) (cur prev : DataFrame) (kw : string) :
  frame_ready keywords cur → frame_ready keywords prev → kw ∈ keywords →
  (df_empty prev = true → scale_factor cur prev kw = Ret 1%Qc)
  ∧ (df_empty cur = true → df_empty prev = false →
     ∃ c t, columns prev !! kw = Some c ∧ last c = Some t
            ∧ scale_factor cur prev kw
              = Ret (if decide (t ≠ 0%Qc) then 0%Qc else 1%Qc)).
Proof.
  intros Hcur Hprev Hkw.
  rewrite (scale_factor_scale_of keywords) by done.
  unfold scale_of, head_value. split.
  - intros Hep. unfold tail_value. rewrite Hep.
    case_decide as Hz; [by destruct Hz|done].
  - intros Hec Hep.
    destruct (column_first_last _ _ _ Hprev Hkw Hep) as (c & h & t & Hc & _ & Ht).
    exists c, t. split; [done|]. split; [done|].
    rewrite (tail_value_column prev kw c t (proj1 Hprev) Hc Ht).
    rewrite Hec. case_decide; [|done].
    unfold Qcdiv. by rewrite Qcmult_0_l.
Qed.

Lemma scale_factor_empty_frames_witness :
  scale_factor Stub.cur (zero_fill ["A"] (mkFrame [] ∅)) "A" = Ret 1%Qc
  ∧ ∃ c t, columns Stub.prev !! "A" = Some c ∧ last c = Some t
           ∧ scale_factor Stub.cur Stub.prev "A"
             = Ret (if decide (t ≠ 0%Qc) then 0%Qc else 1%Qc).
Proof.
  split.
  - apply (scale_factor_empty_frames
             ["A"] Stub.cur (zero_fill ["A"] (mkFrame [] ∅)) "A");
      [compute_done..|by left|reflexivity].
  - apply (scale_factor_empty_frames ["A"] Stub.cur Stub.prev "A");
      [compute_done..|by left|reflexivity|reflexivity].
Defined.

(** C2 as stated fails: the frame after the boundary is empty, yet the
    factor applied to the frame before it is 0, not 1. *)
Lemma scale_factor_empty_counterexample :
  df_empty Stub.cur = true
  ∧ scale_factor Stub.cur Stub.prev "A" = Ret 0%Qc
  ∧ scale_factor Stub.cur Stub.prev "A" ≠ Ret 1%Qc.
Proof. split; [reflexivity|]. split; compute_done. Qed.

Lemma stub_segments :
  divide_timeframe_range 10 Stub.timeframe_range.1 Stub.timeframe_range.2 "d" None
  = Ret Stub.segments.
Proof. compute_done. Qed.

Lemma stub_run :
  get_data Stub.pytrends 10 Stub.keywords Stub.timeframe_range "" false "d"
  = Ret Stub.combined_data.
Proof. compute_done. Qed.

Lemma fetch_segments_lookup pytrends keywords segments geo youtube i :
  fetch_segments pytrends keywords segments geo youtube !! i
  = (λ time_range,
       zero_fill keywords
         (pytrends keywords time_range geo (if youtube then "29" else "0")))
    <$> segments !! i.
Proof. unfold fetch_segments. apply list_lookup_fmap. Qed.

Lemma series_mul_zeros n s :
  series_mul (replicate n 0%Qc) s = replicate n 0%Qc.
Proof.
  unfold series_mul. rewrite fmap_replicate. by rewrite Qcmult_0_l.
Qed.

(** C7 (zero-fill).  A requested keyword that the source leaves out of a
    segment's answer is in the result, with value 0 at every row of that
    segment; at the boundary after that segment the scale factor is 1. *)
Theorem get_data_zero_fill
    (pytrends : TrendReq) (fuel : nat) (keywords : list string)
    (timeframe_range : Z * Z) (geo : string) (youtube : bool)
    (granularity : string) (segments : list Segment)
    (combined_data : CombinedFrame)
    (i : nat) (time_range : Segment) (kw : string) :
  let answer :=
    pytrends keywords time_range geo (if youtube then "29" else "0") in
  let trends_data := fetch_segments pytrends keywords segments geo youtube in
  divide_timeframe_range fuel timeframe_range.1 timeframe_range.2
                         granularity None = Ret segments →
  source_wf pytrends keywords segments geo youtube →
  get_data pytrends fuel keywords timeframe_range geo youtube granularity
  = Ret combined_data →
  segments !! i = Some time_range →
  kw ∈ keywords →
  columns answer !! kw = None →
  (∃ col, columns combined_data !! kw = Some col
          ∧ segment_rows trends_data i col
            = replicate (length (index answer)) (Some 0%Qc))
  ∧ (∀ cur, trends_data !! S i = Some cur →
            scale_factor cur (zero_fill keywords answer) kw = Ret 1%Qc).
Proof.
  intros answer trends_data Hsegments Hsource Hrun Hi Hkw Habsent.
  pose proof (run_ready _ _ _ _ _ _ eq_refl Hsource) as Hready.
  assert (trends_data !! i = Some (zero_fill keywords answer)) as Hraw.
  { unfold trends_data. by rewrite fetch_segments_lookup, Hi. }
  assert (columns (zero_fill keywords answer) !! kw
          = Some (replicate (length (index answer)) 0%Qc)) as Hzero.
  { rewrite zero_fill_lookup, Habsent. by rewrite decide_True. }
  split.
  - assert (∃ df, rescaled_segments keywords trends_data !! i = Some df
                  ∧ columns df !! kw
                    = Some (replicate (length (index answer)) 0%Qc))
      as (df & Hdf & Hcol).
    { rewrite rescaled_segments_lookup, Hraw. simpl.
      destruct (trends_data !! S i) as [cur|]; eexists; (split; [done|]); [|done].
      rewrite rescaled_frame_lookup, Hzero. simpl.
      rewrite decide_True by done. by rewrite series_mul_zeros. }
    destruct (run_segment_rows _ _ _ _ _ _ _ _ _ _ Hsegments eq_refl Hsource Hrun
                i df kw _ Hdf Hcol) as (col & Hcombined & Hrows).
    exists col. split; [done|]. unfold trends_data.
    by rewrite Hrows, fmap_replicate.
  - intros cur Hcur.
    rewrite (scale_factor_scale_of keywords); [|by eapply Forall_lookup_1..|done].
    unfold scale_of. rewrite (tail_value_zero_column _ _ _ Hzero).
    case_decide as Hz; [by destruct Hz|done].
Qed.

Lemma get_data_zero_fill_witness :
  (∃ col, columns Stub.combined_data !! "B" = Some col
          ∧ segment_rows Stub.trends_data 0 col = replicate 2 (Some 0%Qc))
  ∧ (∀ cur, Stub.trends_data !! 1%nat = Some cur →
            scale_factor cur
              (zero_fill Stub.keywords
                 (Stub.pytrends Stub.keywords
                    (Date.ymd 2020 1 1, Date.ymd 2020 9 26) "" "0")) "B"
            = Ret 1%Qc).
Proof.
  apply (get_data_zero_fill Stub.pytrends 10 Stub.keywords Stub.timeframe_range
           "" false "d" Stub.segments Stub.combined_data 0
           (Date.ymd 2020 1 1, Date.ymd 2020 9 26) "B").
  - exact stub_segments.
  - compute_done.
  - exact stub_run.
  - reflexivity.
  - compute_done.
  - reflexivity.
Defined.

(** C10 (frame of the rescale pass).  In the result, the rows of the last
    segment hold the values as fetched; the rows of every other segment hold,
    for a keyword, the fetched column times the one scale factor of the
    boundary after it, computed from the two frames as fetched; a column that
    is not a keyword is never changed.  The zero-fill keeps every fetched
    column as it is. *)
Theorem get_data_rescale_once
    (pytrends : TrendReq) (fuel : nat) (keywords : list string)
    (timeframe_range : Z * Z) (geo : string) (youtube : bool)
    (granularity : string) (segments : list Segment)
    (combined_data : CombinedFrame)
    (i : nat) (time_range : Segment) (k : string) (c : list Qc) :
  let answer :=
    pytrends keywords time_range geo (if youtube then "29" else "0") in
  let trends_data := fetch_segments pytrends keywords segments geo youtube in
  divide_timeframe_range fuel timeframe_range.1 timeframe_range.2
                         granularity None = Ret segments →
  source_wf pytrends keywords segments geo youtube →
  get_data pytrends fuel keywords timeframe_range geo youtube granularity
  = Ret combined_data →
  segments !! i = Some time_range →
  columns (zero_fill keywords answer) !! k = Some c →
  (∀ c', columns answer !! k = Some c' → c = c')
  ∧ ∃ col,
      columns combined_data !! k = Some col
      ∧ (S i = length segments → segment_rows trends_data i col = Some <$> c)
      ∧ (k ∉ keywords → segment_rows trends_data i col = Some <$> c)
      ∧ (∀ cur, trends_data !! S i = Some cur → k ∈ keywords →
           ∃ scale, scale_factor cur (zero_fill keywords answer) k = Ret scale
                    ∧ segment_rows trends_data i col
                      = Some <$> series_mul c scale).
Proof.
  intros answer trends_data Hsegments Hsource Hrun Hi Hk.
  pose proof (run_ready _ _ _ _ _ _ eq_refl Hsource) as Hready.
  assert (trends_data !! i = Some (zero_fill keywords answer)) as Hraw.
  { unfold trends_data. by rewrite fetch_segments_lookup, Hi. }
  split.
  { intros c' Hc'. rewrite zero_fill_lookup, Hc' in Hk. congruence. }
  destruct (run_rows_closed _ _ _ _ _ _ _ _ _ _ Hsegments eq_refl Hsource Hrun
              i _ k c Hraw Hk) as (col & Hcol & Hrows).
  fold trends_data in Hrows. exists col. split; [done|].
  repeat split.
  - intros Hlast. rewrite Hrows.
    rewrite (lookup_ge_None_2 trends_data (S i)); [done|].
    unfold trends_data, fetch_segments. rewrite length_fmap. lia.
  - intros Hnot. rewrite Hrows.
    destruct (trends_data !! S i); [|done]. by rewrite decide_False.
  - intros cur Hcur Hin. exists (scale_of cur (zero_fill keywords answer) k).
    split.
    + apply (scale_factor_scale_of keywords); [by eapply Forall_lookup_1..|done].
    + rewrite Hrows, Hcur. by rewrite decide_True.
Qed.

Lemma get_data_rescale_once_witness :
  (∀ c', columns (Stub.pytrends Stub.keywords
                    (Date.ymd 2020 1 1, Date.ymd 2020 9 26) "" "0") !! "A"
         = Some c' → [Stub.q 10; Stub.q 20] = c')
  ∧ ∃ col,
      columns Stub.combined_data !! "A" = Some col
      ∧ (1%nat = length Stub.segments →
         segment_rows Stub.trends_data 0 col
         = Some <$> [Stub.q 10; Stub.q 20])
      ∧ ("A" ∉ Stub.keywords →
         segment_rows Stub.trends_data 0 col
         = Some <$> [Stub.q 10; Stub.q 20])
      ∧ (∀ cur, Stub.trends_data !! 1%nat = Some cur → "A" ∈ Stub.keywords →
           ∃ scale,
             scale_factor cur
               (zero_fill Stub.keywords
                  (Stub.pytrends Stub.keywords
                     (Date.ymd 2020 1 1, Date.ymd 2020 9 26) "" "0")) "A"
             = Ret scale
             ∧ segment_rows Stub.trends_data 0 col
               = Some <$> series_mul [Stub.q 10; Stub.q 20] scale).
Proof.
  apply (get_data_rescale_once Stub.pytrends 10 Stub.keywords
           Stub.timeframe_range "" false "d" Stub.segments Stub.combined_data 0
           (Date.ymd 2020 1 1, Date.ymd 2020 9 26) "A" [Stub.q 10; Stub.q 20]).
  - exact stub_segments.
  - compute_done.
  - exact stub_run.
  - reflexivity.
  - compute_done.
Defined.

(** C1 (boundary continuity, as the code has it).  At a boundary where the
    keyword's last fetched value before it is non-zero, the rescaled last
    value of segment [i] in the result equals the first value of segment
    [i+1] as fetched; segment [i+1] shows that value in the result when it is
    the last segment. *)
Theorem get_data_boundary_continuity
    (pytrends : TrendReq) (fuel : nat) (keywords : list string)
    (timeframe_range : Z * Z) (geo : string) (youtube : bool)
    (granularity : string) (segments : list Segment)
    (combined_data : CombinedFrame)
    (i : nat) (prev cur : DataFrame) (kw : string) (cp cc : list Qc)
    (t h : Qc) :
  let trends_data := fetch_segments pytrends keywords segments geo youtube in
  divide_timeframe_range fuel timeframe_range.1 timeframe_range.2
                         granularity None = Ret segments →
  source_wf pytrends keywords segments geo youtube →
  get_data pytrends fuel keywords timeframe_range geo youtube granularity
  = Ret combined_data →
  kw ∈ keywords →
  trends_data !! i = Some prev → trends_data !! S i = Some cur →
  columns prev !! kw = Some cp → columns cur !! kw = Some cc →
  last cp = Some t → t ≠ 0%Qc → head cc = Some h →
  ∃ col,
    columns combined_data !! kw = Some col
    ∧ last (segment_rows trends_data i col) = Some (Some h)
    ∧ (S (S i) = length segments →
       head (segment_rows trends_data (S i) col) = Some (Some h)).
Proof.
  intros trends_data Hsegments Hsource Hrun Hkw Hprev Hcur Hcp Hcc Ht Htne Hh.
  pose proof (run_ready _ _ _ _ _ _ eq_refl Hsource) as Hready.
  destruct (Forall_lookup_1 _ _ _ _ Hready Hprev) as [Hwfp _].
  destruct (Forall_lookup_1 _ _ _ _ Hready Hcur) as [Hwfc _].
  destruct (run_rows_closed _ _ _ _ _ _ _ _ _ _ Hsegments eq_refl Hsource Hrun
              i prev kw cp Hprev Hcp) as (col & Hcol & Hrows).
  fold trends_data in Hrows. rewrite Hcur, decide_True in Hrows by done.
  exists col. split; [done|]. split.
  - rewrite Hrows. unfold series_mul. rewrite !fmap_last, Ht. simpl.
    do 2 f_equal. unfold scale_of.
    rewrite (tail_value_column prev kw cp t Hwfp Hcp Ht).
    rewrite (head_value_column cur kw cc h Hwfc Hcc Hh).
    rewrite decide_True by done. by apply Qcmult_div_r.
  - intros Hlast.
    destruct (run_rows_closed _ _ _ _ _ _ _ _ _ _ Hsegments eq_refl Hsource Hrun
                (S i) cur kw cc Hcur Hcc) as (col' & Hcol' & Hrows').
    fold trends_data in Hrows'.
    assert (col' = col) as -> by congruence.
    rewrite (lookup_ge_None_2 trends_data (S (S i))) in Hrows'.
    + rewrite Hrows', head_lookup, list_lookup_fmap, <- head_lookup, Hh. done.
    + unfold trends_data, fetch_segments. rewrite length_fmap. lia.
Qed.

Lemma get_data_boundary_continuity_witness :
  ∃ col,
    columns Stub.combined_data !! "A" = Some col
    ∧ last (segment_rows Stub.trends_data 1 col) = Some (Some (Stub.q 100))
    ∧ (3%nat = length Stub.segments →
       head (segment_rows Stub.trends_data 2 col) = Some (Some (Stub.q 100))).
Proof.
  apply (get_data_boundary_continuity Stub.pytrends 10 Stub.keywords
           Stub.timeframe_range "" false "d" Stub.segments Stub.combined_data 1
           (zero_fill Stub.keywords
              (Stub.pytrends Stub.keywords
                 (Date.ymd 2020 9 27, Date.ymd 2021 6 23) "" "0"))
           (zero_fill Stub.keywords
              (Stub.pytrends Stub.keywords
                 (Date.ymd 2021 6 24, Date.ymd 2021 12 31) "" "0"))
           "A" [Stub.q 40; Stub.q 50] [Stub.q 100; Stub.q 80]
           (Stub.q 50) (Stub.q 100)).
  - exact stub_segments.
  - compute_done.
  - exact stub_run.
  - compute_done.
  - reflexivity.
  - reflexivity.
  - compute_done.
  - compute_done.
  - reflexivity.
  - compute_done.
  - reflexivity.
Defined.

(** C1 as stated fails.  With three segments, segment 1 is itself rescaled
    at the boundary after it: for "A" the first segment ends at 40, the first
    fetched value of the second segment, while the second segment starts at
    80 in the result.  And for "C", present in both of the last two segments,
    the second segment ends at 0, so the factor is 1 and the boundary stays
    at 0 against 3. *)
Lemma boundary_continuity_counterexample :
  get_data Stub.pytrends 10 Stub.keywords Stub.timeframe_range "" false "d"
  = Ret Stub.combined_data
  ∧ (∃ col,
       columns Stub.combined_data !! "A" = Some col
       ∧ last (segment_rows Stub.trends_data 0 col) = Some (Some (Stub.q 40))
       ∧ head (segment_rows Stub.trends_data 1 col) = Some (Some (Stub.q 80))
       ∧ last (segment_rows Stub.trends_data 0 col)
         ≠ head (segment_rows Stub.trends_data 1 col))
  ∧ (∃ col,
       columns Stub.combined_data !! "C" = Some col
       ∧ last (segment_rows Stub.trends_data 1 col) = Some (Some (Stub.q 0))
       ∧ head (segment_rows Stub.trends_data 2 col) = Some (Some (Stub.q 3))
       ∧ last (segment_rows Stub.trends_data 1 col)
         ≠ head (segment_rows Stub.trends_data 2 col)).
Proof.
  split; [exact stub_run|]. split.
  - exists (Some <$> [Stub.q 20; Stub.q 40; Stub.q 80;
                      Stub.q 100; Stub.q 100; Stub.q 80]).
    repeat split; compute_done.
  - exists (Some <$> [Stub.q 14; Stub.q 7; Stub.q 7;
                      Stub.q 0; Stub.q 3; Stub.q 3]).
    repeat split; compute_done.
Qed.

(** * Further properties of the segmenter *)

Lemma chain_disjoint delta e cs segs fin :
  0 ≤ delta → chain delta e cs segs fin →
  ∀ (i j : nat) a b d, segs !! i = Some a → segs !! j = Some b →
    seg_start a ≤ d ≤ seg_end a → seg_start b ≤ d ≤ seg_end b → i = j.
Proof.
  intros Hd. induction 1 as [|cs segs fin Hlt Hch IH]; intros i j a b d Hi Hj Ha Hb;
    [done|].
  pose proof (chain_Forall _ _ Hd _ _ _ Hch) as Hall.
  destruct i as [|i], j as [|j]; simpl in *; [done| | |f_equal; eauto].
  - injection Hi as <-.
    pose proof (Forall_lookup_1 _ _ _ _ Hall Hj) as Hb'.
    unfold seg_start, seg_end in *; simpl in *. lia.
  - injection Hj as <-.
    pose proof (Forall_lookup_1 _ _ _ _ Hall Hi) as Ha'.
    unfold seg_start, seg_end in *; simpl in *. lia.
Qed.

(** On a path that runs the loop with a count of at least 1 or a known
    granularity, the step is not negative. *)
Lemma divide_loop_delta fuel s e g num_segments delta segs :
  s ≤ e →
  (num_segments = None ∧ g = "d" ∧ delta = 269)
  ∨ (num_segments = None ∧ g = "w" ∧ delta = 1889)
  ∨ (∃ n, num_segments = Some n ∧ 1 ≤ n ∧ delta = (e - s) / n) →
  divide_timeframe_range fuel s e g num_segments = Ret segs →
  0 ≤ delta ∧ ∃ fin, chain delta e s segs fin.
Proof.
  intros Hle Hpath Hsegs.
  assert (0 ≤ delta ∧ segment_loop fuel delta e s [] = Ret segs) as [Hd Hloop].
  { destruct Hpath as [(-> & -> & ->)|[(-> & -> & ->)|(n & -> & Hn & ->)]].
    - split; [lia|by rewrite <- divide_daily].
    - split; [lia|by rewrite <- divide_weekly].
    - split; [apply Z.div_pos; lia|].
      by rewrite <- (divide_num_segments fuel s e g n) by lia. }
  split; [done|].
  apply segment_loop_chain in Hloop as (new & fin & -> & Hch). by exists fin.
Qed.

(** Shape of the segmenter's answer.  For [start <= end], whatever the
    path, the segments lie inside the range, each ends no earlier than it
    starts, the first starts on the start date, each next one starts the day
    after the one before it ends, and no day lies in two segments. *)
Theorem divide_timeframe_range_shape
    (fuel : nat) (s e : Z) (g : string) (num_segments : option Z)
    (segs : list Segment) :
  s ≤ e →
  match num_segments with Some n => 0 ≤ n | None => True end →
  divide_timeframe_range fuel s e g num_segments = Ret segs →
  Forall (λ seg, s ≤ seg_start seg ∧ seg_start seg ≤ seg_end seg
                 ∧ seg_end seg ≤ e) segs
  ∧ (∀ seg, head segs = Some seg → seg_start seg = s)
  ∧ contiguous segs
  ∧ (∀ (i j : nat) a b d, segs !! i = Some a → segs !! j = Some b →
       seg_start a ≤ d ≤ seg_end a → seg_start b ≤ d ≤ seg_end b → i = j).
Proof.
  intros Hle Hn Hsegs.
  assert (segs = [(s, e)]
          ∨ ∃ delta fin, 0 ≤ delta ∧ chain delta e s segs fin) as [->|Hloop].
  { destruct num_segments as [n|].
    - destruct (decide (n = 0)) as [->|Hn0].
      + unfold divide_timeframe_range in Hsegs. simpl in Hsegs.
        destruct (String.eqb g "d") eqn:Hgd.
        { apply segment_loop_chain in Hsegs as (new & fin & -> & Hch).
          right. exists 269, fin. split; [lia|done]. }
        destruct (String.eqb g "w") eqn:Hgw.
        { apply segment_loop_chain in Hsegs as (new & fin & -> & Hch).
          right. exists 1889, fin. split; [lia|done]. }
        left. by injection Hsegs as <-.
      + right. destruct (divide_loop_delta fuel s e g (Some n) ((e - s) / n) segs)
          as (Hd & fin & Hch); [done| |done|by eauto].
        right; right. exists n. repeat split; [lia].
    - unfold divide_timeframe_range in Hsegs. simpl in Hsegs.
      destruct (String.eqb g "d") eqn:Hgd.
      { apply segment_loop_chain in Hsegs as (new & fin & -> & Hch).
        right. exists 269, fin. split; [lia|done]. }
      destruct (String.eqb g "w") eqn:Hgw.
      { apply segment_loop_chain in Hsegs as (new & fin & -> & Hch).
        right. exists 1889, fin. split; [lia|done]. }
      left. by injection Hsegs as <-. }
  - repeat split.
    + repeat constructor; unfold seg_start, seg_end; simpl; lia.
    + by intros seg [= <-].
    + by intros [|i] a b Hi Hj.
    + intros [|i] [|j] a b d Hi Hj; done.
  - destruct Hloop as (delta & fin & Hd & Hch). repeat split.
    + eapply Forall_impl; [by eapply chain_Forall|]. simpl. intros seg. lia.
    + intros seg Hhead. by eapply chain_head.
    + by eapply chain_contiguous.
    + by eapply chain_disjoint.
Qed.

Lemma divide_timeframe_range_shape_witness :
  contiguous [(Date.ymd 2020 1 1, Date.ymd 2020 9 26);
              (Date.ymd 2020 9 27, Date.ymd 2021 6 23);
              (Date.ymd 2021 6 24, Date.ymd 2021 12 31)].
Proof.
  apply (divide_timeframe_range_shape
           10 (Date.ymd 2020 1 1) (Date.ymd 2021 12 31) "d" None).
  - by vm_compute.
  - exact I.
  - by vm_compute.
Defined.

(** Coverage as the loop gives it.  On a path that runs the loop, a day is
    in some segment exactly when it lies between the start date and the end
    date, except that the end date itself is left out when the stride
    [delta + 1] divides the span. *)
Theorem divide_timeframe_range_coverage
    (fuel : nat) (s e : Z) (g : string) (num_segments : option Z)
    (delta : Z) (segs : list Segment) :
  s ≤ e →
  (num_segments = None ∧ g = "d" ∧ delta = 269)
  ∨ (num_segments = None ∧ g = "w" ∧ delta = 1889)
  ∨ (∃ n, num_segments = Some n ∧ 1 ≤ n ∧ delta = (e - s) / n) →
  divide_timeframe_range fuel s e g num_segments = Ret segs →
  ∀ d, covered segs d
       ↔ s ≤ d ∧ (if decide ((e - s) mod (delta + 1) = 0)
                  then d < e else d ≤ e).
Proof.
  intros Hle Hpath Hsegs d.
  destruct (divide_loop_delta _ _ _ _ _ _ _ Hle Hpath Hsegs)
    as (Hd & fin & Hch).
  rewrite (chain_covered _ _ Hd _ _ _ Hch).
  pose proof (chain_fin _ _ _ _ _ Hch Hle) as Hfin.
  pose proof (chain_fin_end _ _ Hd _ _ _ Hch Hle) as Hend.
  case_decide; [|assert (fin ≠ e) by tauto]; lia.
Qed.

Lemma divide_timeframe_range_coverage_witness :
  covered [(Date.ymd 2020 1 1, Date.ymd 2020 9 26);
           (Date.ymd 2020 9 27, Date.ymd 2021 6 23);
           (Date.ymd 2021 6 24, Date.ymd 2021 12 31)] (Date.ymd 2021 12 31).
Proof.
  apply (divide_timeframe_range_coverage
           10 (Date.ymd 2020 1 1) (Date.ymd 2021 12 31) "d" None 269).
  - by vm_compute.
  - by left.
  - by vm_compute.
  - vm_compute. split; discriminate.
Defined.

(** The number of segments on a path that runs the loop: the span divided
    by the stride [delta + 1], rounded up; with an explicit count [n] it is
    never more than [n]. *)
Theorem divide_timeframe_range_count
    (fuel : nat) (s e : Z) (g : string) (num_segments : option Z)
    (delta : Z) (segs : list Segment) :
  s ≤ e →
  (num_segments = None ∧ g = "d" ∧ delta = 269)
  ∨ (num_segments = None ∧ g = "w" ∧ delta = 1889)
  ∨ (∃ n, num_segments = Some n ∧ 1 ≤ n ∧ delta = (e - s) / n) →
  divide_timeframe_range fuel s e g num_segments = Ret segs →
  Z.of_nat (length segs) = (e - s + delta) / (delta + 1)
  ∧ ∀ n, num_segments = Some n → Z.of_nat (length segs) ≤ n.
Proof.
  intros Hle Hpath Hsegs.
  destruct (divide_loop_delta _ _ _ _ _ _ _ Hle Hpath Hsegs)
    as (Hd & fin & Hch).
  destruct (chain_length _ _ Hd _ _ _ Hch Hle) as [Hlo Hhi].
  assert (Z.of_nat (length segs) = (e - s + delta) / (delta + 1)) as Hcount.
  { apply (Z.div_unique_pos _ _ _ (e - s + delta
                                   - (delta + 1) * Z.of_nat (length segs)));
      [|lia].
    destruct segs as [|seg segs]; [simpl in *; lia|].
    specialize (Hlo ltac:(done)). simpl length in *. lia. }
  split; [done|]. intros n ->.
  destruct Hpath as [(? & _)|[(? & _)|(n' & [= <-] & Hn & ->)]]; try done.
  rewrite Hcount.
  apply Z.lt_succ_r, Z.div_lt_upper_bound; [lia|].
  pose proof (Z.mul_succ_div_gt (e - s) n ltac:(lia)). nia.
Qed.

Lemma divide_timeframe_range_count_witness :
  Z.of_nat (length [(Date.ymd 2020 1 1, Date.ymd 2020 9 26);
                    (Date.ymd 2020 9 27, Date.ymd 2021 6 23);
                    (Date.ymd 2021 6 24, Date.ymd 2021 12 31)])
  = (Date.ymd 2021 12 31 - Date.ymd 2020 1 1 + 269) / (269 + 1).
Proof.
  apply (divide_timeframe_range_count
           10 (Date.ymd 2020 1 1) (Date.ymd 2021 12 31) "d" None 269).
  - by vm_compute.
  - by left.
  - by vm_compute.
Defined.

Lemma date_add_overflow d k :
  Date.MAXORD < d + k → Date.add d k = Raise OverflowError.
Proof.
  intros H. unfold Date.add.
  destruct (Z.leb_spec (d + k) Date.MAXORD); [lia|]. by rewrite andb_false_r.
Qed.

Lemma segment_loop_negative fuel delta e : ∀ cs acc,
  delta < 0 → cs < e → ¬ is_Ret (segment_loop fuel delta e cs acc).
Proof.
  induction fuel as [|fuel IH]; intros cs acc Hd Hlt [segs Hsegs];
    simpl in Hsegs; destruct (Z.ltb_spec cs e); try lia; [done|].
  destruct (Date.add cs delta) as [sh| |] eqn:Hsh; simpl in Hsegs; try done.
  apply date_add_Ret in Hsh as ->.
  destruct (Date.add (Z.min (cs + delta) e) 1) as [nx| |] eqn:Hnx;
    simpl in Hsegs; try done.
  apply date_add_Ret in Hnx as ->.
  eapply (IH (Z.min (cs + delta) e + 1)); [done|lia|by eexists].
Qed.

Lemma segment_loop_forever fuel e cs : ∀ acc,
  Date.MINORD < cs → cs < e → e ≤ Date.MAXORD →
  segment_loop fuel (-1) e cs acc = OutOfFuel.
Proof.
  induction fuel as [|fuel IH]; intros acc Hmin Hlt Hmax; simpl;
    destruct (Z.ltb_spec cs e); try lia; [done|].
  rewrite date_add_in_range by lia. simpl.
  replace (Z.min (cs + -1) e) with (cs - 1) by lia.
  rewrite date_add_in_range by lia. simpl.
  replace (cs - 1 + 1) with cs by lia. by apply IH.
Qed.

(** A negative segment count.  For [start < end] the segmenter never
    returns: the step is negative, so the running start never reaches the
    end date.  When the count is at least as large in magnitude as the span,
    the step is -1, the running start stays where it is and the loop runs
    for ever, whatever the fuel. *)
Theorem divide_timeframe_range_negative_count
    (fuel : nat) (s e : Z) (g : string) (n : Z) :
  n < 0 → s < e →
  ¬ is_Ret (divide_timeframe_range fuel s e g (Some n))
  ∧ (n ≤ - (e - s) → Date.MINORD < s → e ≤ Date.MAXORD →
     divide_timeframe_range fuel s e g (Some n) = OutOfFuel).
Proof.
  intros Hn Hlt. rewrite divide_num_segments by lia. split.
  - apply segment_loop_negative; [|done].
    pose proof (Z.div_mod (e - s) n ltac:(lia)) as Hdm.
    pose proof (Z.mod_neg_bound (e - s) n Hn). nia.
  - intros Hbig Hmin Hmax.
    assert ((e - s) / n = -1) as ->.
    { symmetry. apply (Z.div_unique _ _ _ (e - s + n)); lia. }
    by apply segment_loop_forever.
Qed.

Lemma divide_timeframe_range_negative_count_witness :
  ¬ is_Ret (divide_timeframe_range 100 (Date.ymd 2020 1 1) (Date.ymd 2020 1 11)
                                   "d" (Some (-3)))
  ∧ divide_timeframe_range 100 (Date.ymd 2020 1 1) (Date.ymd 2020 1 11)
                           "d" (Some (-10)) = OutOfFuel.
Proof.
  split.
  - apply (divide_timeframe_range_negative_count
             100 (Date.ymd 2020 1 1) (Date.ymd 2020 1 11) "d" (-3));
      by vm_compute.
  - apply (divide_timeframe_range_negative_count
             100 (Date.ymd 2020 1 1) (Date.ymd 2020 1 11) "d" (-10));
      vm_compute; done.
Defined.

Lemma segment_loop_overflow fuel delta : ∀ cs acc,
  0 ≤ delta → Date.MINORD ≤ cs → cs < Date.MAXORD →
  (Date.MAXORD - cs) mod (delta + 1) ≠ 0 →
  (Z.to_nat (Date.MAXORD - cs) ≤ fuel)%nat →
  segment_loop fuel delta Date.MAXORD cs acc = Raise OverflowError.
Proof.
  induction fuel as [|fuel IH]; intros cs acc Hd Hmin Hlt Hmod Hfuel; [lia|].
  simpl. destruct (Z.ltb_spec cs Date.MAXORD); [|lia].
  destruct (Z.le_gt_cases (cs + delta) Date.MAXORD) as [Hin|Hout];
    [|by rewrite date_add_overflow by lia].
  rewrite date_add_in_range by lia. simpl.
  replace (Z.min (cs + delta) Date.MAXORD) with (cs + delta) by lia.
  destruct (decide (cs + delta = Date.MAXORD)) as [Heq|Hne];
    [by rewrite date_add_overflow by lia|].
  rewrite date_add_in_range by lia. simpl.
  assert ((Date.MAXORD - (cs + delta + 1)) mod (delta + 1) ≠ 0) as Hmod'.
  { intros Hz. apply Hmod.
    replace (Date.MAXORD - cs)
      with (Date.MAXORD - (cs + delta + 1) + 1 * (delta + 1)) by lia.
    by rewrite Z.mod_add by lia. }
  apply IH; try lia.
  destruct (decide (cs + delta + 1 = Date.MAXORD)) as [Heq|?]; [|lia].
  exfalso. apply Hmod'. rewrite Heq, Z.sub_diag. apply Z.mod_0_l. lia.
Qed.

(** A range that ends on 9999-12-31.  On the "d" and "w" paths, when the
    stride does not divide the span, the last segment reaches the end date
    and the step to the day after it raises [OverflowError] (or the step by
    [delta] does, before). *)
Theorem divide_timeframe_range_overflow
    (fuel : nat) (s : Z) (g : string) (delta : Z) :
  (g = "d" ∧ delta = 269) ∨ (g = "w" ∧ delta = 1889) →
  Date.MINORD ≤ s → s < Date.MAXORD →
  (Date.MAXORD - s) mod (delta + 1) ≠ 0 →
  (Z.to_nat (Date.MAXORD - s) ≤ fuel)%nat →
  divide_timeframe_range fuel s Date.MAXORD g None = Raise OverflowError.
Proof.
  intros [[-> ->]|[-> ->]] Hmin Hlt Hmod Hfuel.
  - rewrite divide_daily. by apply segment_loop_overflow.
  - rewrite divide_weekly. by apply segment_loop_overflow.
Qed.

Lemma divide_timeframe_range_overflow_witness :
  divide_timeframe_range 400 (Date.ymd 9999 1 1) (Date.ymd 9999 12 31) "d" None
  = Raise OverflowError.
Proof.
  apply (divide_timeframe_range_overflow 400 (Date.ymd 9999 1 1) "d" 269).
  - by left.
  - by vm_compute.
  - by vm_compute.
  - by vm_compute.
  - vm_compute. lia.
Defined.

(** * Further properties of the granularity inferrer *)

Lemma date_diffs_cons t t' idx :
  date_diffs (t :: t' :: idx) = td_days (t' - t) :: date_diffs (t' :: idx).
Proof. reflexivity. Qed.

Lemma date_diffs_Forall (P : Z → Prop) idx :
  (∀ (i : nat) t t', idx !! i = Some t → idx !! S i = Some t' →
     P (td_days (t' - t))) →
  Forall P (date_diffs idx).
Proof.
  destruct idx as [|t idx]; [constructor|].
  revert t. induction idx as [|t' idx IH]; intros t Hgap; [constructor|].
  rewrite date_diffs_cons. constructor.
  - by apply (Hgap 0%nat).
  - apply IH. intros i a b Ha Hb. by apply (Hgap (S i)).
Qed.

Lemma diff_from_shift c prev l :
  diff_from (prev + c) ((λ t, t + c) <$> l) = diff_from prev l.
Proof.
  revert prev. induction l as [|t l IH]; intros prev; [done|].
  cbn [fmap list_fmap diff_from]. rewrite IH. do 2 f_equal. lia.
Qed.

Lemma date_diffs_shift c idx :
  date_diffs ((λ t, t + c) <$> idx) = date_diffs idx.
Proof.
  destruct idx as [|t idx]; [done|].
  unfold date_diffs. cbn [fmap list_fmap series_diff].
  by rewrite diff_from_shift.
Qed.

Lemma determine_mode {C} (data : Frame C) :
  (2 ≤ length (index data))%nat →
  ∃ m, is_mode m (date_diffs (index data))
       ∧ determine_overall_granularity_from_data data
         = Ret (if decide (m = 1) then daily
                else if decide (m ≤ 7) then weekly else monthly).
Proof.
  intros Hlen.
  assert (date_diffs (index data) ≠ []) as Hne.
  { intros Hnil. pose proof (date_diffs_length (index data)) as Hl.
    rewrite Hnil in Hl. simpl in Hl. lia. }
  destruct (common_diff_is_mode _ Hne) as (m & Hm & Hmode).
  exists m. split; [done|]. by apply determine_by_mode.
Qed.

(** The label does not depend on where the series lies in time: two
    indexes that differ by a constant shift get the same answer. *)
Theorem determine_overall_granularity_shift
    {C D : Type} (data : Frame C) (data' : Frame D) (c : Z) :
  index data' = (λ t, t + c) <$> index data →
  determine_overall_granularity_from_data data'
  = determine_overall_granularity_from_data data.
Proof.
  intros Hidx. unfold determine_overall_granularity_from_data.
  by rewrite Hidx, date_diffs_shift.
Qed.

Lemma determine_overall_granularity_shift_witness :
  determine_overall_granularity_from_data
    (mkFrame [3; 3 + NS_PER_DAY; 3 + 2 * NS_PER_DAY] (∅ : gmap string (list Qc)))
  = determine_overall_granularity_from_data
      (mkFrame [0; NS_PER_DAY; 2 * NS_PER_DAY] (∅ : gmap string (list Qc))).
Proof.
  apply (determine_overall_granularity_shift
           (mkFrame [0; NS_PER_DAY; 2 * NS_PER_DAY] ∅)
           (mkFrame [3; 3 + NS_PER_DAY; 3 + 2 * NS_PER_DAY] ∅) 3).
  reflexivity.
Defined.

(** Labels for series that are not uniform.  With at least two timestamps:
    when every gap is 8 days or more (calendar months) the label is monthly;
    when every gap is under 8 days and none amounts to one whole day (2 to 7
    days, but also sampling within a day, or a descending index) the label
    is weekly. *)
Theorem determine_overall_granularity_by_gaps {C : Type} (data : Frame C) :
  (2 ≤ length (index data))%nat →
  ((∀ (i : nat) t t', index data !! i = Some t → index data !! S i = Some t' →
      8 * NS_PER_DAY ≤ t' - t) →
   determine_overall_granularity_from_data data = Ret monthly)
  ∧ ((∀ (i : nat) t t', index data !! i = Some t → index data !! S i = Some t' →
        t' - t < 8 * NS_PER_DAY
        ∧ ¬ (NS_PER_DAY ≤ t' - t < 2 * NS_PER_DAY)) →
     determine_overall_granularity_from_data data = Ret weekly).
Proof.
  intros Hlen. destruct (determine_mode data Hlen) as (m & [Hin _] & ->).
  split; intros Hgap.
  - assert (Forall (λ g, 8 ≤ g) (date_diffs (index data))) as Hall.
    { apply date_diffs_Forall. intros i t t' Ht Ht'.
      specialize (Hgap i t t' Ht Ht'). unfold td_days.
      apply Z.div_le_lower_bound; [done|lia]. }
    eapply Forall_forall in Hall; [|exact Hin].
    rewrite decide_False by lia. by rewrite decide_False by lia.
  - assert (Forall (λ g, g ≤ 7 ∧ g ≠ 1) (date_diffs (index data))) as Hall.
    { apply date_diffs_Forall. intros i t t' Ht Ht'.
      destruct (Hgap i t t' Ht Ht') as [Hhi Hnot]. unfold td_days. split.
      - apply Z.lt_succ_r, Z.div_lt_upper_bound; [done|lia].
      - intros H1. apply Hnot.
        pose proof (Z.div_mod (t' - t) NS_PER_DAY ltac:(done)) as Hdm.
        pose proof (Z.mod_pos_bound (t' - t) NS_PER_DAY ltac:(done)).
        rewrite H1 in Hdm. lia. }
    eapply Forall_forall in Hall; [|exact Hin]. destruct Hall.
    rewrite decide_False by done. by rewrite decide_True by done.
Qed.

Lemma determine_overall_granularity_by_gaps_witness :
  determine_overall_granularity_from_data
    (mkFrame [0; 31 * NS_PER_DAY; 59 * NS_PER_DAY; 90 * NS_PER_DAY]
             (∅ : gmap string (list Qc)))
  = Ret monthly.
Proof.
  apply (determine_overall_granularity_by_gaps
           (mkFrame [0; 31 * NS_PER_DAY; 59 * NS_PER_DAY; 90 * NS_PER_DAY] ∅)).
  - simpl. lia.
  - intros [|[|[|[|i]]]] t t'; simpl; try done;
      intros [= <-] [= <-]; by vm_compute.
Defined.

(** Ties go to the finer label.  With at least two timestamps and no gap
    under one day, the label is daily as soon as no gap length occurs more
    often than the one-day gap does. *)
Theorem determine_overall_granularity_tie {C : Type} (data : Frame C) :
  (2 ≤ length (index data))%nat →
  Forall (λ g, 1 ≤ g) (date_diffs (index data)) →
  (∀ x, occurrences x (date_diffs (index data))
        ≤ occurrences 1 (date_diffs (index data)))%nat →
  determine_overall_granularity_from_data data = Ret daily.
Proof.
  intros Hlen Hall Hmax.
  destruct (determine_mode data Hlen) as (m & (Hin & Hge & Hmin) & ->).
  assert (m ≤ 1) as Hle.
  { apply Hmin. apply Nat.le_antisymm; [apply Hge|apply Hmax]. }
  eapply Forall_forall in Hall; [|exact Hin].
  by rewrite decide_True by lia.
Qed.

Lemma determine_overall_granularity_tie_witness :
  determine_overall_granularity_from_data
    (mkFrame [0; 7 * NS_PER_DAY; 8 * NS_PER_DAY; 15 * NS_PER_DAY; 16 * NS_PER_DAY]
             (∅ : gmap string (list Qc)))
  = Ret daily.
Proof.
  apply (determine_overall_granularity_tie
           (mkFrame [0; 7 * NS_PER_DAY; 8 * NS_PER_DAY;
                     15 * NS_PER_DAY; 16 * NS_PER_DAY] ∅)).
  - simpl. lia.
  - by vm_compute; repeat constructor.
  - intros x. change (date_diffs _) with [7; 1; 7; 1].
    unfold occurrences. rewrite !filter_cons, filter_nil.
    repeat case_decide; simpl; lia.
Defined.

(** * Further properties of the fetch and rescale pipeline *)

(** Zero-fill adds exactly the missing keywords.  It keeps the index and
    every column the answer has, the columns afterwards are those of the
    answer and the keywords, and filling a second time changes nothing. *)
Theorem zero_fill_columns (keywords : list string) (df : DataFrame) :
  index (zero_fill keywords df) = index df
  ∧ (∀ k c, columns df !! k = Some c →
            columns (zero_fill keywords df) !! k = Some c)
  ∧ dom (columns (zero_fill keywords df))
    = dom (columns df) ∪ list_to_set keywords
  ∧ zero_fill keywords (zero_fill keywords df) = zero_fill keywords df.
Proof.
  split; [apply zero_fill_index|]. split.
  { intros k c Hk. by rewrite zero_fill_lookup, Hk. }
  split.
  - apply set_eq. intros k.
    rewrite elem_of_union, !elem_of_dom, elem_of_list_to_set, zero_fill_lookup.
    destruct (columns df !! k) as [c|] eqn:Hk.
    + split; [by left; eexists|by eexists].
    + case_decide.
      * split; [by right|by eexists].
      * split; [by intros [??]|]. by intros [[??]|?].
  - apply frame_eq; [by rewrite !zero_fill_index|].
    apply map_eq. intros k. rewrite zero_fill_lookup.
    destruct (columns (zero_fill keywords df) !! k) as [c|] eqn:Hk; [done|].
    rewrite zero_fill_lookup in Hk.
    destruct (columns df !! k); [done|]. by case_decide.
Qed.

Lemma setitem_not_empty {C} (df : Frame C) k c :
  df_empty (setitem df k c) = bool_decide (length (index df) = 0%nat).
Proof.
  rewrite (df_empty_with_column (setitem df k c) k); [done|].
  unfold setitem; simpl. rewrite lookup_insert_eq. by eexists.
Qed.

(** The rescale pass on zero-filled frames.  It never raises, and it keeps
    the number of frames and, in every frame, the index, the names of the
    columns and the length of each column. *)
Theorem rescale_segments_preserves
    (keywords : list string) (trends_data : list DataFrame) :
  Forall (frame_ready keywords) trends_data →
  ∃ out,
    rescale_segments keywords (length trends_data) trends_data = Ret out
    ∧ length out = length trends_data
    ∧ ∀ (i : nat) df, trends_data !! i = Some df →
        ∃ df', out !! i = Some df'
               ∧ index df' = index df
               ∧ dom (columns df') = dom (columns df)
               ∧ ∀ k c, columns df !! k = Some c →
                   ∃ c', columns df' !! k = Some c' ∧ length c' = length c.
Proof.
  intros Hready. exists (rescaled_segments keywords trends_data).
  split; [by apply rescale_segments_closed|].
  split; [unfold rescaled_segments; apply length_imap|].
  intros i df Hi. rewrite rescaled_segments_lookup, Hi. simpl.
  destruct (trends_data !! S i) as [cur|]; eexists; (split; [done|]).
  - split; [done|]. split.
    + apply set_eq. intros k. rewrite !elem_of_dom, rescaled_frame_lookup.
      by rewrite fmap_is_Some.
    + intros k c Hk. rewrite rescaled_frame_lookup, Hk. simpl.
      eexists. split; [done|]. case_decide; by rewrite ?series_mul_length.
  - split; [done|]. split; [done|]. intros k c Hk. by exists c.
Qed.

Lemma rescale_segments_preserves_witness :
  ∃ out,
    rescale_segments Stub.keywords (length Stub.trends_data) Stub.trends_data
    = Ret out
    ∧ length out = length Stub.trends_data
    ∧ ∀ (i : nat) df, Stub.trends_data !! i = Some df →
        ∃ df', out !! i = Some df'
               ∧ index df' = index df
               ∧ dom (columns df') = dom (columns df)
               ∧ ∀ k c, columns df !! k = Some c →
                   ∃ c', columns df' !! k = Some c' ∧ length c' = length c.
Proof.
  apply (rescale_segments_preserves Stub.keywords Stub.trends_data).
  compute_done.
Defined.

(** Without the zero-fill the rescale step fails.  With frames that are
    tables, the step for a keyword raises [KeyError] when the frame before
    the boundary has no column for it, or when the frame after the boundary
    has rows but no column for it. *)
Theorem rescale_step_missing_keyword
    (i : nat) (trends_data : list DataFrame) (cur prev : DataFrame)
    (kw : string) :
  trends_data !! i = Some cur →
  trends_data !! (i - 1)%nat = Some prev →
  frame_wf cur →
  columns prev !! kw = None
  ∨ (df_empty cur = false ∧ columns cur !! kw = None) →
  rescale_step i trends_data kw = Raise KeyError.
Proof.
  intros Hcur Hprev Hwf Hmissing.
  unfold rescale_step, frame_at. rewrite Hcur, Hprev. cbn [rbind].
  unfold scale_factor.
  destruct (df_empty cur) eqn:Hec; cbn [negb rbind].
  - destruct Hmissing as [Hp|[? _]]; [|done].
    unfold getitem. rewrite Hp.
    by destruct (df_empty prev).
  - unfold getitem at 1.
    destruct (columns cur !! kw) as [c|] eqn:Hc; [|done].
    destruct Hmissing as [Hp|[_ ?]]; [|done]. cbn [rbind].
    assert (∃ h, head c = Some h) as [h Hh].
    { apply head_is_Some. intros ->.
      rewrite (df_empty_with_column cur kw) in Hec by eauto.
      apply bool_decide_eq_false in Hec. apply Hec.
      by rewrite <- (Hwf kw [] Hc). }
    unfold iloc_first. rewrite Hh. cbn [rbind].
    unfold getitem. rewrite Hp. by destruct (df_empty prev).
Qed.

Lemma rescale_step_missing_keyword_witness :
  rescale_step 1 [mkFrame [Stub.day 1] ∅; Stub.cur] "A" = Raise KeyError.
Proof.
  apply (rescale_step_missing_keyword
           1 [mkFrame [Stub.day 1] ∅; Stub.cur] Stub.cur
           (mkFrame [Stub.day 1] ∅) "A").
  - reflexivity.
  - reflexivity.
  - compute_done.
  - by left.
Defined.







Lemma pd_concat_lookup_inv objs combined k col :
  pd_concat objs = Ret combined →
  columns combined !! k = Some col →
  col = objs ≫= concat_cells k
  ∧ ∃ df, df ∈ objs ∧ is_Some (columns df !! k).
Proof.
  intros Hconcat Hk.
  assert (combined
          = mkFrame (objs ≫= index)
              (set_to_map (λ k, (k, objs ≫= concat_cells k))
                 (⋃ ((λ df, dom (columns df)) <$> objs) : gset string)))
    as ->.
  { destruct objs; [done|]. by injection Hconcat as <-. }
  cbn [columns] in Hk.
  apply lookup_set_to_map in Hk as (k' & Hin & [= -> <-]);
    [|by intros y y' _ _].
  split; [done|].
  apply elem_of_union_list in Hin as (X & HX & Hk).
  apply list_elem_of_fmap in HX as (df & -> & Hdf).
  exists df. split; [done|]. by apply elem_of_dom.
Qed.

Lemma bind_concat_cells_length k (objs : list DataFrame) :
  Forall frame_wf objs →
  length (objs ≫= concat_cells k) = length (objs ≫= index).
Proof.
  induction 1 as [|df objs Hwf _ IH]; [done|].
  rewrite !bind_cons, !length_app, IH. by rewrite concat_cells_length.
Qed.

(** The result of [get_data] is a table with every keyword in it: each
    column is as long as the index, and each requested keyword has a column
    without a missing cell, whether the source answered for it or not. *)
Theorem get_data_table
    (pytrends : TrendReq) (fuel : nat) (keywords : list string)
    (timeframe_range : Z * Z) (geo : string) (youtube : bool)
    (granularity : string) (segments : list Segment)
    (combined_data : CombinedFrame) :
  divide_timeframe_range fuel timeframe_range.1 timeframe_range.2
                         granularity None = Ret segments →
  source_wf pytrends keywords segments geo youtube →
  get_data pytrends fuel keywords timeframe_range geo youtube granularity
  = Ret combined_data →
  frame_wf combined_data
  ∧ ∀ kw, kw ∈ keywords →
      ∃ col, columns combined_data !! kw = Some col ∧ Forall is_Some col.
Proof.
  intros Hsegments Hsource Hrun.
  pose proof (run_ready _ _ _ _ _ _ eq_refl Hsource) as Hready.
  pose proof (run_concat _ _ _ _ _ _ _ _ _ _ Hsegments eq_refl Hsource Hrun)
    as Hconcat.
  pose proof (rescaled_segments_ready _ _ Hready) as Hready'.
  destruct (pd_concat_Ret _ _ Hconcat) as (Hne & Hidx & Hcols).
  split.
  - intros k col Hk. simpl.
    destruct (pd_concat_lookup_inv _ _ _ _ Hconcat Hk) as [-> _].
    rewrite Hidx. apply bind_concat_cells_length.
    eapply Forall_impl; [exact Hready'|]. by intros df [? _].
  - intros kw Hkw.
    destruct (rescaled_segments keywords
                (fetch_segments pytrends keywords segments geo youtube))
      as [|df0 dfs] eqn:Hrs; [done|].
    eexists. split.
    + apply Hcols. exists df0. split; [left|].
      apply (frame_ready_column keywords); [|done].
      by apply Forall_inv in Hready'.
    + apply Forall_forall. intros cell Hcell.
      apply list_elem_of_bind in Hcell as (df & Hcell & Hdf).
      eapply Forall_forall in Hready'; [|exact Hdf].
      destruct (frame_ready_column _ _ _ Hready' Hkw) as [c Hc].
      unfold concat_cells in Hcell. rewrite Hc in Hcell.
      by apply list_elem_of_fmap in Hcell as (v & -> & _).
Qed.

Lemma get_data_table_witness :
  frame_wf Stub.combined_data
  ∧ ∀ kw, kw ∈ Stub.keywords →
      ∃ col, columns Stub.combined_data !! kw = Some col ∧ Forall is_Some col.
Proof.
  apply (get_data_table Stub.pytrends 10 Stub.keywords Stub.timeframe_range
           "" false "d" Stub.segments Stub.combined_data).
  - exact stub_segments.
  - compute_done.
  - exact stub_run.
Defined.

Lemma zero_fill_nonneg keywords df :
  frame_nonneg df → frame_nonneg (zero_fill keywords df).
Proof.
  intros Hnn k c. rewrite zero_fill_lookup.
  destruct (columns df !! k) as [c'|] eqn:Hk.
  - intros [= <-]. by apply (Hnn k).
  - case_decide; [|done]. intros [= <-].
    apply Forall_forall. by intros v ->%elem_of_replicate_inv.
Qed.

Lemma head_value_nonneg df kw : frame_nonneg df → (0 ≤ head_value df kw)%Qc.
Proof.
  intros Hnn. unfold head_value. destruct (df_empty df); [done|].
  destruct (columns df !! kw) as [c|] eqn:Hk; simpl; [|done].
  destruct (head c) as [h|] eqn:Hh; simpl; [|done].
  pose proof (Hnn kw c Hk) as Hc. simpl in Hc.
  eapply Forall_forall in Hc; [exact Hc|]. by eapply head_Some_elem_of.
Qed.

Lemma tail_value_nonneg df kw : frame_nonneg df → (0 ≤ tail_value df kw)%Qc.
Proof.
  intros Hnn. unfold tail_value. destruct (df_empty df); [done|].
  destruct (columns df !! kw) as [c|] eqn:Hk; simpl; [|done].
  destruct (last c) as [t|] eqn:Ht; simpl; [|done].
  pose proof (Hnn kw c Hk) as Hc. simpl in Hc.
  eapply Forall_forall in Hc; [exact Hc|]. by eapply last_Some_elem_of.
Qed.

Lemma scale_of_nonneg cur prev kw :
  frame_nonneg cur → frame_nonneg prev → (0 ≤ scale_of cur prev kw)%Qc.
Proof.
  intros Hcur Hprev. unfold scale_of.
  pose proof (head_value_nonneg cur kw Hcur) as Hh.
  pose proof (tail_value_nonneg prev kw Hprev) as Ht.
  case_decide as Hne; [|done].
  apply Qcmult_nonneg_nonneg; [done|].
  apply Qclt_le_weak, Qcinv_pos.
  destruct (Qcle_lt_or_eq _ _ Ht) as [?|Heq]; [done|]. by destruct Hne.
Qed.

Lemma rescaled_frame_nonneg keywords cur prev :
  frame_nonneg cur → frame_nonneg prev →
  frame_nonneg (rescaled_frame keywords cur prev).
Proof.
  intros Hcur Hprev k c. rewrite rescaled_frame_lookup.
  destruct (columns prev !! k) as [c'|] eqn:Hk; simpl; [|done].
  intros [= <-]. pose proof (Hprev k c' Hk) as Hc. simpl in Hc.
  case_decide; [|done].
  unfold series_mul. apply Forall_fmap.
  eapply Forall_impl; [exact Hc|]. simpl. intros v Hv.
  apply Qcmult_nonneg_nonneg; [done|]. by apply scale_of_nonneg.
Qed.

(** The rescale keeps scores non-negative: when no answer of the source
    holds a negative score, no cell of the result does. *)
Theorem get_data_nonneg
    (pytrends : TrendReq) (fuel : nat) (keywords : list string)
    (timeframe_range : Z * Z) (geo : string) (youtube : bool)
    (granularity : string) (segments : list Segment)
    (combined_data : CombinedFrame) :
  divide_timeframe_range fuel timeframe_range.1 timeframe_range.2
                         granularity None = Ret segments →
  source_wf pytrends keywords segments geo youtube →
  get_data pytrends fuel keywords timeframe_range geo youtube granularity
  = Ret combined_data →
  Forall (λ time_range,
            frame_nonneg (pytrends keywords time_range geo
                                   (if youtube then "29" else "0")))
         segments →
  ∀ k col, columns combined_data !! k = Some col →
    Forall (λ cell, ∀ v, cell = Some v → (0 ≤ v)%Qc) col.
Proof.
  intros Hsegments Hsource Hrun Hnonneg k col Hk.
  pose proof (run_concat _ _ _ _ _ _ _ _ _ _ Hsegments eq_refl Hsource Hrun)
    as Hconcat.
  destruct (pd_concat_lookup_inv _ _ _ _ Hconcat Hk) as [-> _].
  set (trends_data := fetch_segments pytrends keywords segments geo youtube).
  assert (Forall frame_nonneg trends_data) as Hraw.
  { unfold trends_data, fetch_segments. apply Forall_fmap.
    eapply Forall_impl; [exact Hnonneg|]. intros tr. apply zero_fill_nonneg. }
  apply Forall_forall. intros cell Hcell v ->.
  apply list_elem_of_bind in Hcell as (df & Hcell & Hdf).
  apply list_elem_of_lookup in Hdf as [i Hi].
  rewrite rescaled_segments_lookup in Hi.
  destruct (trends_data !! i) as [prev|] eqn:Hprev; [|done].
  simpl in Hi. injection Hi as <-.
  pose proof (Forall_lookup_1 _ _ _ _ Hraw Hprev) as Hnp.
  assert (frame_nonneg
            match trends_data !! S i with
            | Some cur => rescaled_frame keywords cur prev
            | None => prev
            end) as Hnn.
  { destruct (trends_data !! S i) as [cur|] eqn:Hcur; [|done].
    apply rescaled_frame_nonneg; [|done]. by eapply Forall_lookup_1. }
  set (df := match trends_data !! S i with
             | Some cur => rescaled_frame keywords cur prev
             | None => prev
             end) in *.
  unfold concat_cells in Hcell.
  destruct (columns df !! k) as [c|] eqn:Hc.
  - apply list_elem_of_fmap in Hcell as (v' & [= ->] & Hv').
    pose proof (Hnn k c Hc) as Hall. simpl in Hall.
    by eapply Forall_forall in Hall.
  - by apply elem_of_replicate_inv in Hcell.
Qed.

Lemma get_data_nonneg_witness :
  Forall (λ cell, ∀ v, cell = Some v → (0 ≤ v)%Qc)
         (Some <$> [Stub.q 20; Stub.q 40; Stub.q 80;
                    Stub.q 100; Stub.q 100; Stub.q 80]).
Proof.
  apply (get_data_nonneg Stub.pytrends 10 Stub.keywords Stub.timeframe_range
           "" false "d" Stub.segments Stub.combined_data
           stub_segments ltac:(compute_done) stub_run ltac:(compute_done)
           "A").
  compute_done.
Defined.

Lemma series_mul_0 c : series_mul c 0%Qc = replicate (length c) 0%Qc.
Proof.
  unfold series_mul. induction c as [|v c IH]; [done|].
  cbn [fmap list_fmap length replicate]. fold (fmap (λ v, (v * 0)%Qc) c).
  by rewrite IH, Qcmult_0_r.
Qed.

(** A segment is wiped out when the next one starts at zero.  If the last
    fetched value of a keyword before a boundary is non-zero and the frame
    after the boundary is empty or starts with 0 for that keyword, every row
    of the segment before the boundary is 0 for that keyword in the
    result. *)
Theorem get_data_zeroed_segment
    (pytrends : TrendReq) (fuel : nat) (keywords : list string)
    (timeframe_range : Z * Z) (geo : string) (youtube : bool)
    (granularity : string) (segments : list Segment)
    (combined_data : CombinedFrame)
    (i : nat) (prev cur : DataFrame) (kw : string) (cp : list Qc) (t : Qc) :
  let trends_data := fetch_segments pytrends keywords segments geo youtube in
  divide_timeframe_range fuel timeframe_range.1 timeframe_range.2
                         granularity None = Ret segments →
  source_wf pytrends keywords segments geo youtube →
  get_data pytrends fuel keywords timeframe_range geo youtube granularity
  = Ret combined_data →
  kw ∈ keywords →
  trends_data !! i = Some prev → trends_data !! S i = Some cur →
  columns prev !! kw = Some cp → last cp = Some t → t ≠ 0%Qc →
  df_empty cur = true
  ∨ (∃ cc, columns cur !! kw = Some cc ∧ head cc = Some 0%Qc) →
  ∃ col,
    columns combined_data !! kw = Some col
    ∧ segment_rows trends_data i col = replicate (length cp) (Some 0%Qc).
Proof.
  intros trends_data Hsegments Hsource Hrun Hkw Hprev Hcur Hcp Ht Htne Hhead.
  pose proof (run_ready _ _ _ _ _ _ eq_refl Hsource) as Hready.
  destruct (Forall_lookup_1 _ _ _ _ Hready Hprev) as [Hwfp _].
  destruct (Forall_lookup_1 _ _ _ _ Hready Hcur) as [Hwfc _].
  destruct (run_rows_closed _ _ _ _ _ _ _ _ _ _ Hsegments eq_refl Hsource Hrun
              i prev kw cp Hprev Hcp) as (col & Hcol & Hrows).
  fold trends_data in Hrows. rewrite Hcur, decide_True in Hrows by done.
  exists col. split; [done|]. rewrite Hrows.
  assert (scale_of cur prev kw = 0%Qc) as ->.
  { unfold scale_of.
    rewrite (tail_value_column prev kw cp t Hwfp Hcp Ht).
    rewrite decide_True by done.
    assert (head_value cur kw = 0%Qc) as ->.
    { destruct Hhead as [Hec|(cc & Hcc & Hh)].
      - unfold head_value. by rewrite Hec.
      - by apply (head_value_column cur kw cc). }
    unfold Qcdiv. apply Qcmult_0_l. }
  by rewrite series_mul_0, fmap_replicate.
Qed.

Lemma demo_gap_run :
  get_data Demo.pytrends_gap 10 ["A"] Stub.timeframe_range "" false "d"
  = Ret Demo.combined_gap.
Proof. compute_done. Qed.

Lemma get_data_zeroed_segment_witness :
  ∃ col,
    columns Demo.combined_gap !! "A" = Some col
    ∧ segment_rows (fetch_segments Demo.pytrends_gap ["A"] Stub.segments
                                   "" false) 0 col
      = replicate (length [Stub.q 10; Stub.q 20]) (Some 0%Qc).
Proof.
  apply (get_data_zeroed_segment Demo.pytrends_gap 10 ["A"]
           Stub.timeframe_range "" false "d" Stub.segments Demo.combined_gap 0
           (zero_fill ["A"] (Demo.pytrends_gap ["A"]
              (Date.ymd 2020 1 1, Date.ymd 2020 9 26) "" "0"))
           (zero_fill ["A"] (Demo.pytrends_gap ["A"]
              (Date.ymd 2020 9 27, Date.ymd 2021 6 23) "" "0"))
           "A" [Stub.q 10; Stub.q 20] (Stub.q 20)).
  - exact stub_segments.
  - compute_done.
  - exact demo_gap_run.
  - by left.
  - reflexivity.
  - reflexivity.
  - compute_done.
  - reflexivity.
  - compute_done.
  - right. exists [Stub.q 0; Stub.q 50]. split; compute_done.
Defined.

Lemma bind_singleton {A B} (f : A → list B) (x : A) : [x] ≫= f = f x.
Proof. rewrite bind_cons. apply app_nil_r. Qed.







(** * Properties of the first version, [Google_Trends.py] *)

Lemma v1_half_span (s e : Z) :
  V1.divide_and_round (V1.strptime e - V1.strptime s) 2
  = (e - s) * 43200000000.
Proof.
  unfold V1.divide_and_round, V1.strptime, V1.US_PER_DAY.
  replace (e * 86400000000 - s * 86400000000)
    with ((e - s) * 43200000000 * 2) by lia.
  rewrite Z.div_mul, Z.mod_mul by done. reflexivity.
Qed.

Lemma v1_midpoint_date (s e : Z) :
  V1.strftime (V1.strptime s + (e - s) * 43200000000) = s + (e - s) / 2.
Proof.
  unfold V1.strftime, V1.strptime, V1.US_PER_DAY.
  pose proof (Z.div_mod (e - s) 2 ltac:(done)) as Hdm.
  pose proof (Z.mod_pos_bound (e - s) 2 ltac:(done)) as Hm.
  symmetry.
  apply (Z.div_unique_pos _ _ _ (((e - s) mod 2) * 43200000000)); lia.
Qed.

Lemma v1_divide_eq (s e : Z) :
  Date.MINORD ≤ s ≤ Date.MAXORD → Date.MINORD ≤ e ≤ Date.MAXORD →
  V1.divide_timeframe_range s e = Ret (s, s + (e - s) / 2, e).
Proof.
  intros Hs He.
  pose proof (Z.div_mod (e - s) 2 ltac:(done)) as Hdm.
  pose proof (Z.mod_pos_bound (e - s) 2 ltac:(done)) as Hm.
  unfold V1.divide_timeframe_range, V1.datetime_add.
  rewrite v1_half_span, v1_midpoint_date.
  destruct (Z.leb_spec Date.MINORD (s + (e - s) / 2)); [|lia].
  destruct (Z.leb_spec (s + (e - s) / 2) Date.MAXORD); [|lia].
  cbn [andb rbind]. rewrite v1_midpoint_date.
  unfold V1.strftime, V1.strptime. by rewrite !Z.div_mul.
Qed.

(** The midpoint of the first version.  For two dates of the calendar the
    function never raises; the midpoint is the start plus half the span in
    days, rounded down, so for [start <= end] it lies between the two and
    the second half is as long as the first or one day longer. *)
Theorem v1_divide_timeframe_range_midpoint (s e : Z) :
  Date.MINORD ≤ s ≤ Date.MAXORD → Date.MINORD ≤ e ≤ Date.MAXORD →
  V1.divide_timeframe_range s e = Ret (s, s + (e - s) / 2, e)
  ∧ (s ≤ e →
     s ≤ s + (e - s) / 2 ≤ e
     ∧ 0 ≤ (e - (s + (e - s) / 2)) - (s + (e - s) / 2 - s) ≤ 1).
Proof.
  intros Hs He.
  pose proof (Z.div_mod (e - s) 2 ltac:(done)) as Hdm.
  pose proof (Z.mod_pos_bound (e - s) 2 ltac:(done)) as Hm.
  split; [by apply v1_divide_eq|lia].
Qed.

Lemma v1_divide_timeframe_range_midpoint_witness :
  V1.divide_timeframe_range (Date.ymd 2015 1 1) (Date.ymd 2023 6 15)
  = Ret (Date.ymd 2015 1 1,
         Date.ymd 2015 1 1 + (Date.ymd 2023 6 15 - Date.ymd 2015 1 1) / 2,
         Date.ymd 2023 6 15).
Proof.
  apply (v1_divide_timeframe_range_midpoint
           (Date.ymd 2015 1 1) (Date.ymd 2023 6 15)); by vm_compute.
Defined.

(** The two queries of the first version.  For two dates of the calendar,
    [get_trends_data] yields the answers for [start .. midpoint] and
    [midpoint .. end]: for [start <= end] the two ranges cover the whole
    range, and the midpoint day, and only it, is asked for twice. *)
Theorem v1_get_trends_data_halves
    (pytrends : TrendReq) (keywords : list string) (s e : Z)
    (geo : string) (youtube : bool) :
  let mid := s + (e - s) / 2 in
  let cat := if youtube then "29" else "0" in
  Date.MINORD ≤ s ≤ Date.MAXORD → Date.MINORD ≤ e ≤ Date.MAXORD →
  V1.get_trends_data pytrends keywords (s, e) geo youtube
  = Ret [pytrends keywords (s, mid) geo cat; pytrends keywords (mid, e) geo cat]
  ∧ (s ≤ e →
     ∀ d, (s ≤ d ≤ e ↔ s ≤ d ≤ mid ∨ mid ≤ d ≤ e)
          ∧ (s ≤ d ≤ mid ∧ mid ≤ d ≤ e ↔ d = mid)).
Proof.
  intros mid cat Hs He.
  pose proof (Z.div_mod (e - s) 2 ltac:(done)) as Hdm.
  pose proof (Z.mod_pos_bound (e - s) 2 ltac:(done)) as Hm.
  split.
  - unfold V1.get_trends_data. cbn [fst snd]. by rewrite v1_divide_eq.
  - intros Hle d. unfold mid. lia.
Qed.

Lemma v1_get_trends_data_halves_witness :
  V1.get_trends_data Stub.pytrends ["A"; "C"]
                     (Date.ymd 2020 1 1, Date.ymd 2021 12 31) "" false
  = Ret [Stub.pytrends ["A"; "C"]
           (Date.ymd 2020 1 1,
            Date.ymd 2020 1 1 + (Date.ymd 2021 12 31 - Date.ymd 2020 1 1) / 2)
           "" "0";
         Stub.pytrends ["A"; "C"]
           (Date.ymd 2020 1 1 + (Date.ymd 2021 12 31 - Date.ymd 2020 1 1) / 2,
            Date.ymd 2021 12 31)
           "" "0"].
Proof.
  apply (v1_get_trends_data_halves Stub.pytrends ["A"; "C"]
           (Date.ymd 2020 1 1) (Date.ymd 2021 12 31) "" false);
    by vm_compute.
Defined.

Lemma df_empty_false_rows {C} (df : Frame C) :
  df_empty df = false → length (index df) ≠ 0%nat.
Proof.
  unfold df_empty. intros [H _]%orb_false_elim.
  by apply bool_decide_eq_false in H.
Qed.

Lemma v1_step_agrees td kw first second :
  td !! 0%nat = Some first → td !! 1%nat = Some second →
  df_empty first = false → df_empty second = false →
  V1.rescale_first_half td kw = rescale_step 1 td kw.
Proof.
  intros H0 H1 He0 He1.
  unfold V1.rescale_first_half, rescale_step, scale_factor, frame_at.
  cbn [Nat.sub]. rewrite H0, H1. cbn [rbind]. rewrite He0, He1.
  cbn [negb rbind].
  destruct (getitem second kw) as [c1| |]; cbn [rbind]; try done.
  destruct (iloc_first c1) as [h| |]; cbn [rbind]; try done.
  destruct (getitem first kw) as [c0| |]; cbn [rbind]; try done.
  by destruct (iloc_last c0) as [t| |].
Qed.

Lemma v1_step_Ret td kw td' :
  V1.rescale_first_half td kw = Ret td' →
  ∃ first second c0 c1 scale,
    td !! 0%nat = Some first ∧ td !! 1%nat = Some second
    ∧ columns first !! kw = Some c0 ∧ columns second !! kw = Some c1
    ∧ td' = <[0%nat := setitem first kw (series_mul c0 scale)]> td.
Proof.
  unfold V1.rescale_first_half, frame_at, getitem.
  destruct (td !! 1%nat) as [second|]; cbn [rbind]; [|done].
  destruct (columns second !! kw) as [c1|] eqn:Hc1; cbn [rbind]; [|done].
  destruct (iloc_first c1) as [h| |]; cbn [rbind]; try done.
  destruct (td !! 0%nat) as [first|]; cbn [rbind]; [|done].
  destruct (columns first !! kw) as [c0|] eqn:Hc0; cbn [rbind]; [|done].
  destruct (iloc_last c0) as [t| |]; cbn [rbind]; try done.
  intros [= <-]. eexists first, second, c0, c1, _. by repeat split.
Qed.

Lemma v1_loop_agrees keywords : ∀ td first second,
  td !! 0%nat = Some first → td !! 1%nat = Some second →
  df_empty first = false → df_empty second = false →
  for_each V1.rescale_first_half keywords td
  = for_each (rescale_step 1) keywords td.
Proof.
  induction keywords as [|kw ks IH]; intros td first second H0 H1 He0 He1;
    [done|].
  cbn [for_each]. rewrite <- (v1_step_agrees td kw first second) by done.
  destruct (V1.rescale_first_half td kw) as [td'| |] eqn:Hstep;
    cbn [rbind]; try done.
  apply v1_step_Ret in Hstep
    as (first' & second' & c0 & c1 & scale & H0' & H1' & _ & _ & ->).
  assert (first' = first) as -> by congruence.
  assert (second' = second) as -> by congruence.
  eapply IH.
  - apply list_lookup_insert_eq. by eapply lookup_lt_Some.
  - by rewrite list_lookup_insert_ne.
  - rewrite setitem_not_empty. apply bool_decide_eq_false.
    by apply df_empty_false_rows.
  - done.
Qed.

(** The second version's pass extends the first version's.  On two frames
    that both have rows and columns, the rescale loop of
    [plot_keyword_trends] and [rescale_segments] with two segments give the
    same result, errors included. *)
Theorem v1_rescale_agrees
    (keywords : list string) (first second : DataFrame) :
  df_empty first = false → df_empty second = false →
  for_each V1.rescale_first_half keywords [first; second]
  = rescale_segments keywords 2 [first; second].
Proof.
  intros He0 He1. unfold rescale_segments. cbn [Nat.sub seq for_each].
  rewrite (v1_loop_agrees keywords [first; second] first second) by done.
  by destruct (for_each (rescale_step 1) keywords [first; second]).
Qed.

Lemma v1_rescale_agrees_witness :
  for_each V1.rescale_first_half Demo.v1_keywords [Demo.v1_first; Demo.v1_second]
  = rescale_segments Demo.v1_keywords 2 [Demo.v1_first; Demo.v1_second].
Proof.
  apply (v1_rescale_agrees Demo.v1_keywords Demo.v1_first Demo.v1_second);
    reflexivity.
Defined.

Lemma v1_loop_columns keywords : ∀ td td' first second,
  td !! 0%nat = Some first → td !! 1%nat = Some second →
  for_each V1.rescale_first_half keywords td = Ret td' →
  ∀ kw, kw ∈ keywords →
    is_Some (columns first !! kw) ∧ is_Some (columns second !! kw).
Proof.
  induction keywords as [|kw0 ks IH]; intros td td' first second H0 H1 Hrun kw Hkw;
    [by apply elem_of_nil in Hkw|].
  cbn [for_each] in Hrun.
  destruct (V1.rescale_first_half td kw0) as [td1| |] eqn:Hstep;
    cbn [rbind] in Hrun; try done.
  apply v1_step_Ret in Hstep
    as (first' & second' & c0 & c1 & scale & H0' & H1' & Hc0 & Hc1 & ->).
  assert (first' = first) as -> by congruence.
  assert (second' = second) as -> by congruence.
  apply elem_of_cons in Hkw as [->|Hkw]; [by eauto|].
  destruct (IH (<[0%nat := setitem first kw0 (series_mul c0 scale)]> td) td'
              (setitem first kw0 (series_mul c0 scale)) second) with kw
    as [Hf Hs]; try done.
  - apply list_lookup_insert_eq. by eapply lookup_lt_Some.
  - by rewrite list_lookup_insert_ne.
  - split; [|done]. unfold setitem in Hf. cbn [columns] in Hf.
    destruct (decide (kw = kw0)) as [->|Hne]; [by eauto|].
    by rewrite lookup_insert_ne in Hf.
Qed.

(** The first version has no zero-fill: when a keyword is missing from the
    answer for either half, [plot_keyword_trends] does not get to its
    plot. *)
Theorem v1_plot_keyword_trends_missing_keyword
    (pytrends : TrendReq) (keywords : list string) (timeframe_range : Z * Z)
    (geo : string) (youtube : bool) (first second : DataFrame) (kw : string) :
  V1.get_trends_data pytrends keywords timeframe_range geo youtube
  = Ret [first; second] →
  kw ∈ keywords →
  columns first !! kw = None ∨ columns second !! kw = None →
  ¬ is_Ret (V1.plot_keyword_trends pytrends keywords timeframe_range
                                   geo youtube).
Proof.
  intros Hdata Hkw Hmissing [combined Hrun].
  unfold V1.plot_keyword_trends in Hrun. rewrite Hdata in Hrun.
  cbn [rbind] in Hrun.
  destruct (for_each V1.rescale_first_half keywords [first; second])
    as [td'| |] eqn:Hloop; cbn [rbind] in Hrun; try done.
  destruct (v1_loop_columns keywords [first; second] td' first second
              eq_refl eq_refl Hloop kw Hkw) as [[c0 Hc0] [c1 Hc1]].
  destruct Hmissing; congruence.
Qed.

Lemma v1_plot_keyword_trends_missing_keyword_witness :
  V1.plot_keyword_trends Stub.pytrends ["A"; "B"]
                         (Date.ymd 2020 1 1, Date.ymd 2021 12 31) "" false
  = Raise KeyError.
Proof.
  destruct (V1.plot_keyword_trends Stub.pytrends ["A"; "B"]
              (Date.ymd 2020 1 1, Date.ymd 2021 12 31) "" false)
    as [combined|e|] eqn:Hrun.
  - exfalso.
    apply (v1_plot_keyword_trends_missing_keyword Stub.pytrends ["A"; "B"]
             (Date.ymd 2020 1 1, Date.ymd 2021 12 31) "" false
             (Stub.pytrends ["A"; "B"]
                (Date.ymd 2020 1 1, Demo.v1_midpoint) "" "0")
             (Stub.pytrends ["A"; "B"]
                (Demo.v1_midpoint, Date.ymd 2021 12 31) "" "0")
             "B").
    + compute_done.
    + compute_done.
    + left. reflexivity.
    + by exists combined.
  - vm_compute in Hrun. by injection Hrun as <-.
  - vm_compute in Hrun. discriminate.
Defined.



Lemma demo_v1_data :
  V1.get_trends_data Stub.pytrends Demo.v1_keywords
                     (Date.ymd 2020 1 1, Date.ymd 2021 12 31) "" false
  = Ret [Demo.v1_first; Demo.v1_second].
Proof. compute_done. Qed.


Lemma getitem_concat (objs : list DataFrame) (combined : CombinedFrame) k :
  pd_concat objs = Ret combined →
  getitem combined k
  = if decide (Exists (λ df, is_Some (columns df !! k)) objs)
    then Ret (objs ≫= concat_cells k) else Raise KeyError.
Proof.
  intros Hconcat. unfold getitem.
  destruct (pd_concat_Ret _ _ Hconcat) as (_ & _ & Hcols).
  case_decide as Hex.
  - rewrite Hcols; [done|]. by apply Exists_exists in Hex.
  - destruct (columns combined !! k) as [col|] eqn:Hk; [|done].
    destruct (pd_concat_lookup_inv _ _ _ _ Hconcat Hk) as [_ Hdf].
    destruct Hex. by apply Exists_exists.
Qed.

Lemma float_div_scale (x y c : Qc) :
  (0 < c)%Qc →
  float_div (Some (x * c)%Qc) (Some (y * c)%Qc) = float_div (Some x) (Some y).
Proof.
  intros Hc. assert (c ≠ 0%Qc) as Hc0 by (by apply not_eq_sym, Qclt_not_eq).
  assert (∀ z : Qc, (z * c = 0 ↔ z = 0)%Qc) as Hzero.
  { intros z. split; [|by intros ->; rewrite Qcmult_0_l].
    by intros [?|?]%Qcmult_integral. }
  unfold float_div.
  destruct (decide (y = 0%Qc)) as [Hy|Hy].
  - rewrite decide_True by (by apply Hzero).
    destruct (decide (x = 0%Qc)) as [Hx|Hx].
    + by rewrite decide_True by (by apply Hzero).
    + rewrite decide_False by (by rewrite Hzero).
      destruct (decide (0 < x)%Qc) as [Hpos|Hneg].
      * rewrite decide_True; [done|].
        rewrite <- (Qcmult_0_l c). by apply Qcmult_lt_mono_pos_r.
      * rewrite decide_False; [done|]. intros Hpos. apply Hneg.
        rewrite <- (Qcmult_0_l c) in Hpos.
        by apply Qcmult_lt_mono_pos_r in Hpos.
  - rewrite decide_False by (by rewrite Hzero). f_equal. by field.
Qed.

Lemma ratio_cells_scaled (f f' : DataFrame) (k1 k2 : string) (c : Qc) :
  (0 < c)%Qc →
  index f' = index f →
  columns f' = (λ col, series_mul col c) <$> columns f →
  zip_with float_div (concat_cells k1 f') (concat_cells k2 f')
  = zip_with float_div (concat_cells k1 f) (concat_cells k2 f).
Proof.
  intros Hc Hidx Hcols. unfold concat_cells.
  rewrite Hcols, !lookup_fmap, Hidx.
  destruct (columns f !! k1) as [a|], (columns f !! k2) as [b|]; simpl.
  - revert b. induction a as [|x a IH]; intros [|y b]; try done.
    unfold series_mul in *. cbn [fmap list_fmap zip_with] in *.
    rewrite float_div_scale by done. f_equal. apply IH.
  - generalize (length (index f)). induction a as [|x a IH]; intros [|n];
      try done.
    unfold series_mul in *. cbn [fmap list_fmap replicate zip_with] in *.
    f_equal. apply IH.
  - generalize (length (index f)). induction b as [|y b IH]; intros [|n];
      try done.
    unfold series_mul in *. cbn [fmap list_fmap replicate zip_with] in *.
    f_equal. apply IH.
  - done.
Qed.

Lemma bind_pair {A B} (f : A → list B) (x y : A) : [x; y] ≫= f = f x ++ f y.
Proof. by rewrite bind_cons, bind_singleton. Qed.

Lemma v1_ratio_unfold pytrends kw1 kw2 rest timeframe_range geo youtube
    first second :
  V1.get_trends_data pytrends [kw1; kw2] timeframe_range geo youtube
  = Ret [first; second] →
  V1.plot_interest_ratio pytrends (kw1 :: kw2 :: rest) timeframe_range
                         geo youtube
  = if decide (Exists (λ df, is_Some (columns df !! kw1)) [first; second]
               ∧ Exists (λ df, is_Some (columns df !! kw2)) [first; second])
    then Ret (index first ++ index second,
              zip_with float_div
                (concat_cells kw1 first ++ concat_cells kw1 second)
                (concat_cells kw2 first ++ concat_cells kw2 second))
    else Raise KeyError.
Proof.
  intros Hdata. unfold V1.plot_interest_ratio, list_item.
  cbn [lookup list_lookup rbind]. rewrite Hdata. cbn [rbind].
  destruct (pd_concat [first; second]) as [combined| |] eqn:Hconcat; try done.
  cbn [rbind]. rewrite !(getitem_concat _ _ _ Hconcat).
  destruct (pd_concat_Ret _ _ Hconcat) as (_ & -> & _).
  rewrite !bind_pair.
  destruct (decide (Exists (λ df, is_Some (columns df !! kw1)) [first; second]));
    destruct (decide (Exists (λ df, is_Some (columns df !! kw2)) [first; second]));
    cbn [rbind]; try done.
  - rewrite decide_True by done. done.
  - rewrite decide_False by tauto. done.
  - rewrite decide_False by tauto. done.
  - rewrite decide_False by tauto. done.
Qed.

(** The ratio of the first version.  With fewer than two keywords the
    function raises [IndexError] before it asks the source.  Otherwise it
    divides the first keyword's column by the second's row by row on the two
    halves as fetched, without rescaling them: it raises [KeyError] when one
    of the two keywords is in neither half, a zero divisor or a missing cell
    gives an infinity or [NaN] and never an exception, and for halves that
    are tables there is one ratio per row. *)
Theorem v1_plot_interest_ratio_rows
    (pytrends : TrendReq) (keywords : list string) (timeframe_range : Z * Z)
    (geo : string) (youtube : bool) :
  let run :=
    V1.plot_interest_ratio pytrends keywords timeframe_range geo youtube in
  ((length keywords < 2)%nat → run = Raise IndexError)
  ∧ ∀ kw1 kw2 rest first second,
      keywords = kw1 :: kw2 :: rest →
      V1.get_trends_data pytrends [kw1; kw2] timeframe_range geo youtube
      = Ret [first; second] →
      let has k := Exists (λ df : DataFrame, is_Some (columns df !! k))
                          [first; second] in
      let cells k := concat_cells k first ++ concat_cells k second in
      (¬ (has kw1 ∧ has kw2) → run = Raise KeyError)
      ∧ (has kw1 ∧ has kw2 →
         run = Ret (index first ++ index second,
                    zip_with float_div (cells kw1) (cells kw2)))
      ∧ (frame_wf first → frame_wf second →
         ∀ idx ratio, run = Ret (idx, ratio) → length ratio = length idx).
Proof.
  intros run. split.
  { intros Hlen. unfold run, V1.plot_interest_ratio, list_item.
    destruct keywords as [|kw1 [|kw2 rest]]; [done|done|simpl in Hlen; lia]. }
  intros kw1 kw2 rest first second -> Hdata has cells.
  unfold run. rewrite (v1_ratio_unfold _ _ _ _ _ _ _ _ _ Hdata).
  fold (has kw1) (has kw2) (cells kw1) (cells kw2).
  split; [|split].
  - intros Hnot. by rewrite decide_False.
  - intros Hhas. by rewrite decide_True.
  - intros Hwf0 Hwf1 idx ratio. case_decide; [|done]. intros [= <- <-].
    rewrite length_zip_with. unfold cells.
    rewrite !length_app, !concat_cells_length by done. lia.
Qed.

Lemma v1_plot_interest_ratio_rows_witness :
  V1.plot_interest_ratio Stub.pytrends ["A"] Stub.timeframe_range "" false
  = Raise IndexError
  ∧ V1.plot_interest_ratio Stub.pytrends Demo.v1_keywords
                           (Date.ymd 2020 1 1, Date.ymd 2021 12 31) "" false
    = Ret (index Demo.v1_first ++ index Demo.v1_second,
           zip_with float_div
             (concat_cells "A" Demo.v1_first ++ concat_cells "A" Demo.v1_second)
             (concat_cells "C" Demo.v1_first ++ concat_cells "C" Demo.v1_second)).
Proof.
  split.
  - apply (v1_plot_interest_ratio_rows Stub.pytrends ["A"]
             Stub.timeframe_range "" false).
    simpl. lia.
  - apply (proj2 (v1_plot_interest_ratio_rows Stub.pytrends Demo.v1_keywords
                    (Date.ymd 2020 1 1, Date.ymd 2021 12 31) "" false)
                 "A" "C" [] Demo.v1_first Demo.v1_second).
    + reflexivity.
    + exact demo_v1_data.
    + compute_done.
Defined.

(** The ratio does not depend on the scale of a request.  Two sources whose
    answers for the two halves differ only by a positive factor each (the
    same shape, normalized differently) give the same ratio series: the
    reason why the first version does not rescale before it divides. *)
Theorem v1_plot_interest_ratio_scale_invariant
    (pytrends pytrends' : TrendReq) (kw1 kw2 : string) (rest : list string)
    (timeframe_range : Z * Z) (geo : string) (youtube : bool)
    (first second first' second' : DataFrame) (c0 c1 : Qc) :
  V1.get_trends_data pytrends [kw1; kw2] timeframe_range geo youtube
  = Ret [first; second] →
  V1.get_trends_data pytrends' [kw1; kw2] timeframe_range geo youtube
  = Ret [first'; second'] →
  frame_wf first → frame_wf second →
  (0 < c0)%Qc → (0 < c1)%Qc →
  index first' = index first →
  columns first' = (λ col, series_mul col c0) <$> columns first →
  index second' = index second →
  columns second' = (λ col, series_mul col c1) <$> columns second →
  V1.plot_interest_ratio pytrends' (kw1 :: kw2 :: rest) timeframe_range
                         geo youtube
  = V1.plot_interest_ratio pytrends (kw1 :: kw2 :: rest) timeframe_range
                           geo youtube.
Proof.
  intros Hdata Hdata' Hwf0 Hwf1 Hc0 Hc1 Hi0 Hcols0 Hi1 Hcols1.
  rewrite (v1_ratio_unfold _ _ _ _ _ _ _ _ _ Hdata).
  rewrite (v1_ratio_unfold _ _ _ _ _ _ _ _ _ Hdata').
  assert (∀ k, Exists (λ df : DataFrame, is_Some (columns df !! k))
                      [first'; second']
               ↔ Exists (λ df : DataFrame, is_Some (columns df !! k))
                        [first; second]) as Hhas.
  { intros k. rewrite !Exists_cons, !Exists_nil, Hcols0, Hcols1.
    by rewrite !lookup_fmap, !fmap_is_Some. }
  assert (∀ (f : DataFrame) k, frame_wf f →
            length (concat_cells k f) = length (index f)) as Hlen.
  { intros f k Hwf. by apply concat_cells_length. }
  assert (∀ (f f' : DataFrame) k c,
            frame_wf f → index f' = index f →
            columns f' = (λ col, series_mul col c) <$> columns f →
            length (concat_cells k f') = length (index f)) as Hlen'.
  { intros f f' k c Hwf Hi Hc. unfold concat_cells.
    rewrite Hc, lookup_fmap, Hi.
    destruct (columns f !! k) as [col|] eqn:Hk; simpl.
    - rewrite length_fmap, series_mul_length. by apply (Hwf k).
    - by rewrite length_replicate. }
  destruct (decide (Exists _ [first; second] ∧ Exists _ [first; second]))
    as [Hex|Hex].
  - rewrite decide_True by (by rewrite !Hhas).
    rewrite Hi0, Hi1. do 2 f_equal.
    rewrite !zip_with_app
      by (by rewrite ?(Hlen' first first' _ c0), ?Hlen).
    by rewrite (ratio_cells_scaled first first' kw1 kw2 c0),
      (ratio_cells_scaled second second' kw1 kw2 c1).
  - by rewrite decide_False by (by rewrite !Hhas).
Qed.

Lemma v1_plot_interest_ratio_scale_invariant_witness :
  V1.plot_interest_ratio Demo.pytrends_doubled ["A"; "C"]
                         (Date.ymd 2020 1 1, Date.ymd 2021 12 31) "" false
  = V1.plot_interest_ratio Stub.pytrends ["A"; "C"]
                           (Date.ymd 2020 1 1, Date.ymd 2021 12 31) "" false.
Proof.
  apply (v1_plot_interest_ratio_scale_invariant
           Stub.pytrends Demo.pytrends_doubled "A" "C" []
           (Date.ymd 2020 1 1, Date.ymd 2021 12 31) "" false
           Demo.v1_first Demo.v1_second
           (Demo.pytrends_doubled Demo.v1_keywords
              (Date.ymd 2020 1 1, Demo.v1_midpoint) "" "0")
           (Demo.pytrends_doubled Demo.v1_keywords
              (Demo.v1_midpoint, Date.ymd 2021 12 31) "" "0")
           (Stub.q 2) (Stub.q 2));
    try reflexivity; compute_done.
Defined.
